(** * The stock account ledger of rqalpha

    A shallow embedding of [rqalpha/model/account/stock_account.py]
    ([StockAccount]) and the properties of its event handlers.

    Conventions of the embedding.
    - Python numbers (cash, prices, quantities) are exact rationals [Qc];
      the source computes with Python floats, whose rounding is not
      modelled.  [/] is the true division; a division by zero raises
      [ZeroDivisionError].  The statements about the cash and the frozen
      cash of an account keep the operations and the order in which the
      handlers perform them.
    - [dict] objects are [gmap]s, the [set] of execution ids is a [gset].
      Loops over a dict run over [map_to_list], from left to right.
    - A handler is a function from the account before the call to the
      account after it; handlers that can raise return a [result].
    - The position records, the position store's [get_or_create], the
      environment (calendar, configuration, data proxy) and [BaseAccount]
      are collaborators of the module; they enter as an interface
      ([PositionOps]), as an [Environment] record, or as definitions
      modelled from the specification and marked as such.
    - [user_system_log.warn] only writes to the log and is left out. *)

From Stdlib Require Import QArith Qcanon.
From stdpp Require Import gmap strings list fin_maps numbers.

Local Open Scope Qc_scope.

(** ** Exceptions and results *)

Inductive exn := TypeError | KeyError | ZeroDivisionError.

Inductive result (A : Type) :=
  | Ok (a : A)
  | Raise (e : exn).
Arguments Ok {A} a.
Arguments Raise {A} e.

Global Instance result_bind : MBind result := λ A B k r,
  match r with
  | Ok a => k a
  | Raise e => Raise e
  end.

Global Instance result_ret : MRet result := λ A a, Ok a.

(** Python's true division on numbers. *)
Definition py_div (a b : Qc) : result Qc :=
  if decide (b = 0) then Raise ZeroDivisionError else Ok (a / b).

(** ** Orders, trades, dividends *)

(** [const.SIDE] *)
Inductive SIDE := BUY | SELL.

Global Instance SIDE_eq_dec : EqDecision SIDE.
Proof. solve_decision. Defined.

(** A calendar date (proleptic ordinal) and a time stamp. *)
Definition date := Z.
Record datetime := { dt_date : date; dt_seconds : Z }.

(** The fields of an order the account reads.  [_is_final] is the method
    [Order._is_final()], a function of the order's status. *)
Record Order := {
  o_order_book_id : string;
  o_side : SIDE;
  o_quantity : Qc;
  o_unfilled_quantity : Qc;
  _frozen_price : Qc;
  _is_final : bool;
}.

Record Trade := {
  exec_id : Z;
  order : Order;
  side : SIDE;
  last_quantity : Qc;
  last_price : Qc;
  transaction_cost : Qc;
}.

(** A record of the pending-dividend table:
    [{'quantity': .., 'dividend_per_share': .., 'payable_date': ..}]. *)
Record Dividend := {
  d_quantity : Qc;
  d_dividend_per_share : Qc;
  d_payable_date : date;
}.

Global Instance Dividend_eq_dec : EqDecision Dividend.
Proof. solve_decision. Defined.

(** What the data proxy returns for a dividend and for a split. *)
Record DividendInfo := {
  dividend_cash_before_tax : Qc;
  round_lot : Qc;
  payable_date : datetime;
}.

Record SplitInfo := {
  split_coefficient_from : Qc;
  split_coefficient_to : Qc;
}.

(** [Environment.get_instance()]: the clock, the two configuration flags
    and the two queries of the data proxy the account uses. *)
Record Environment := {
  trading_dt : datetime;
  handle_split : bool;
  cash_return_by_stock_delisted : bool;
  get_dividend_by_book_date : string → date → option DividendInfo;
  get_split_by_ex_date : string → date → option SplitInfo;
}.

(** ** The position interface

    The position class is not part of this module.  The account calls the
    methods below on a position; each mutating method is the function from
    the position before the call to the position after it.
    [new_position k] is [position_cls(k)], the record [get_or_create]
    makes for a symbol it does not hold. *)
Class PositionOps (Position : Type) := {
  new_position : string → Position;
  order_book_id : Position → string;
  quantity : Position → Qc;
  market_value : Position → Qc;
  is_de_listed : Position → bool;
  apply_trade_ : Position → Trade → Position;
  on_order_pending_new_ : Position → Order → Position;
  on_order_cancel_ : Position → Order → Position;
  after_trading_ : Position → Position;
  apply_settlement : Position → Position;
  split_ : Position → Qc → Position;
}.

(** What the account relies on: a position keeps its symbol, a fresh
    position carries the symbol it was made for, and the end-of-day roll
    forward does not change the quantity held. *)
Class PositionLaws (Position : Type) `{!PositionOps Position} : Prop := {
  new_position_id k : order_book_id (new_position k) = k;
  apply_settlement_id p : order_book_id (apply_settlement p) = order_book_id p;
  apply_settlement_quantity p : quantity (apply_settlement p) = quantity p;
}.

(** The notifications and the updates of a position leave its symbol as it
    is. *)
Class PositionKeepsSymbol (Position : Type) `{!PositionOps Position}
  : Prop := {
  apply_trade_id p trade :
    order_book_id (apply_trade_ p trade) = order_book_id p;
  on_order_pending_new_id p o :
    order_book_id (on_order_pending_new_ p o) = order_book_id p;
  on_order_cancel_id p o :
    order_book_id (on_order_cancel_ p o) = order_book_id p;
  after_trading_id p : order_book_id (after_trading_ p) = order_book_id p;
  split_id p ratio : order_book_id (split_ p ratio) = order_book_id p;
}.

(** ** The account *)

Section Account.
Context {Position : Type} `{!PositionOps Position}.

Record StockAccount := {
  _total_cash : Qc;
  _frozen_cash : Qc;
  _positions : gmap string Position;
  _backward_trade_set : gset Z;
  _dividend_receivable : gmap string Dividend;
}.

Definition set_total_cash (s : StockAccount) (c : Qc) : StockAccount :=
  {| _total_cash := c; _frozen_cash := _frozen_cash s;
     _positions := _positions s;
     _backward_trade_set := _backward_trade_set s;
     _dividend_receivable := _dividend_receivable s |}.

Definition set_frozen_cash (s : StockAccount) (c : Qc) : StockAccount :=
  {| _total_cash := _total_cash s; _frozen_cash := c;
     _positions := _positions s;
     _backward_trade_set := _backward_trade_set s;
     _dividend_receivable := _dividend_receivable s |}.

Definition set_positions (s : StockAccount) (m : gmap string Position)
  : StockAccount :=
  {| _total_cash := _total_cash s; _frozen_cash := _frozen_cash s;
     _positions := m;
     _backward_trade_set := _backward_trade_set s;
     _dividend_receivable := _dividend_receivable s |}.

Definition set_backward_trade_set (s : StockAccount) (b : gset Z)
  : StockAccount :=
  {| _total_cash := _total_cash s; _frozen_cash := _frozen_cash s;
     _positions := _positions s;
     _backward_trade_set := b;
     _dividend_receivable := _dividend_receivable s |}.

Definition set_dividend_receivable (s : StockAccount)
  (d : gmap string Dividend) : StockAccount :=
  {| _total_cash := _total_cash s; _frozen_cash := _frozen_cash s;
     _positions := _positions s;
     _backward_trade_set := _backward_trade_set s;
     _dividend_receivable := d |}.

(** Modelled from the spec: [Positions.get_or_create] is not part of this
    module.  It returns the position held for the symbol and, when there
    is none, first stores a fresh one ("create the position entry if
    absent").  The result is the store after the call and the position. *)
Definition get_or_create (m : gmap string Position) (k : string)
  : gmap string Position * Position :=
  match m !! k with
  | Some p => (m, p)
  | None => (<[k := new_position k]> m, new_position k)
  end.

(** [_apply_trade].  A method called on the position returned by
    [get_or_create] changes the record stored for that symbol.
    [apply_trade_body] is the part of the method below the guard. *)
Definition apply_trade_body (s : StockAccount) (trade : Trade)
  : StockAccount :=
  let k := o_order_book_id (order trade) in
  let '(m, position) := get_or_create (_positions s) k in
  let s := set_positions s m in
  let s := set_total_cash s (_total_cash s - transaction_cost trade) in
  let s :=
    if decide (side trade = BUY) then
      let s := set_total_cash s
                 (_total_cash s - last_quantity trade * last_price trade) in
      let s := set_frozen_cash s
                 (_frozen_cash s
                  - _frozen_price (order trade) * last_quantity trade) in
      set_positions s (<[k := apply_trade_ position trade]> (_positions s))
    else
      set_total_cash s
        (_total_cash s + last_price trade * last_quantity trade) in
  set_backward_trade_set s ({[exec_id trade]} ∪ _backward_trade_set s).

Definition _apply_trade (s : StockAccount) (trade : Trade) : StockAccount :=
  if decide (exec_id trade ∈ _backward_trade_set s) then s
  else apply_trade_body s trade.

(** [_on_trade]: the handler of [EVENT.TRADE]; the event carries a trade. *)
Definition _on_trade (s : StockAccount) (trade : Trade) : StockAccount :=
  _apply_trade s trade.

(** [fast_forward]: the first loop replays the trades, the second one
    recomputes the frozen cash from zero. *)
Definition fast_forward_trade (s : StockAccount) (trade : Trade)
  : StockAccount :=
  if decide (exec_id trade ∈ _backward_trade_set s) then s
  else _apply_trade s trade.

Definition fast_forward_order (s : StockAccount) (o : Order) : StockAccount :=
  if _is_final o then s
  else set_frozen_cash s
         (_frozen_cash s + _frozen_price o * o_unfilled_quantity o).

Definition fast_forward (s : StockAccount) (orders : list Order)
  (trades : list Trade) : StockAccount :=
  let s := foldl fast_forward_trade s trades in
  let s := set_frozen_cash s 0 in
  foldl fast_forward_order s orders.

(** [_on_order_pending_new]; the event carries an order. *)
Definition _on_order_pending_new (s : StockAccount) (o : Order)
  : StockAccount :=
  let k := o_order_book_id o in
  let '(m, position) := get_or_create (_positions s) k in
  let s := set_positions s (<[k := on_order_pending_new_ position o]> m) in
  if decide (o_side o = BUY) then
    let order_value := _frozen_price o * o_quantity o in
    set_frozen_cash s (_frozen_cash s + order_value)
  else s.

(** [_on_order_unsolicited_update]: the handler of a rejected creation, of
    an unsolicited update and of a passed cancellation. *)
Definition _on_order_unsolicited_update (s : StockAccount) (o : Order)
  : StockAccount :=
  let k := o_order_book_id o in
  let '(m, position) := get_or_create (_positions s) k in
  let s := set_positions s (<[k := on_order_cancel_ position o]> m) in
  if decide (o_side o = BUY) then
    let unfilled_value := o_unfilled_quantity o * _frozen_price o in
    set_frozen_cash s (_frozen_cash s - unfilled_value)
  else s.

(** A [for] loop whose body can raise. *)
Fixpoint for_each {A S : Type} (body : S → A → result S) (l : list A) (s : S)
  : result S :=
  match l with
  | [] => Ok s
  | x :: l => s' ← body s x; for_each body l s'
  end.

(** [_handle_dividend_payable]: the first loop credits the records due
    today and collects their symbols, the second one deletes them. *)
Definition dividend_payable_step (trading_date : date)
  (acc : list string * StockAccount) (item : string * Dividend)
  : list string * StockAccount :=
  let '(to_be_removed, s) := acc in
  let '(k, dividend) := item in
  if decide (d_payable_date dividend = trading_date) then
    (to_be_removed ++ [k],
     set_total_cash s
       (_total_cash s + d_quantity dividend * d_dividend_per_share dividend))
  else acc.

Definition _handle_dividend_payable (s : StockAccount) (trading_date : date)
  : StockAccount :=
  let '(to_be_removed, s) :=
    foldl (dividend_payable_step trading_date) ([], s)
      (map_to_list (_dividend_receivable s)) in
  foldl (λ s k, set_dividend_receivable s (delete k (_dividend_receivable s)))
    s to_be_removed.

(** [_handle_dividend_book_closure] *)
Definition dividend_book_closure_step (env : Environment)
  (trading_date : date) (s : StockAccount) (item : string * Position)
  : result StockAccount :=
  let '(k, position) := item in
  match get_dividend_by_book_date env k trading_date with
  | None => Ok s
  | Some dividend =>
      dividend_per_share ←
        py_div (dividend_cash_before_tax dividend) (round_lot dividend);
      Ok (set_dividend_receivable s
            (<[k := {| d_quantity := quantity position;
                       d_dividend_per_share := dividend_per_share;
                       d_payable_date := dt_date (payable_date dividend) |}]>
               (_dividend_receivable s)))
  end.

Definition _handle_dividend_book_closure (env : Environment)
  (s : StockAccount) (trading_date : date) : result StockAccount :=
  for_each (dividend_book_closure_step env trading_date)
    (map_to_list (_positions s)) s.

(** [_handle_split] *)
Definition split_step (env : Environment) (trading_date : date)
  (s : StockAccount) (item : string * Position) : result StockAccount :=
  let '(k, position) := item in
  match get_split_by_ex_date env k trading_date with
  | None => Ok s
  | Some split =>
      ratio ← py_div (split_coefficient_to split)
                     (split_coefficient_from split);
      Ok (set_positions s (<[k := split_ position ratio]> (_positions s)))
  end.

Definition _handle_split (env : Environment) (s : StockAccount)
  (trading_date : date) : result StockAccount :=
  for_each (split_step env trading_date) (map_to_list (_positions s)) s.

(** [_before_trading] *)
Definition _before_trading (env : Environment) (s : StockAccount)
  : result StockAccount :=
  let trading_date := dt_date (trading_dt env) in
  let s := _handle_dividend_payable s trading_date in
  if handle_split env then _handle_split env s trading_date else Ok s.

(** [_after_trading]: every position held is notified once. *)
Definition _after_trading (s : StockAccount) : StockAccount :=
  set_positions s (after_trading_ <$> _positions s).

(** [_on_settlement].  The loop runs over a snapshot of the positions; the
    key under which a position of the snapshot is stored stands for the
    identity of the object: [apply_settlement] changes the object, which
    shows in the store where the object still is.  [pop] removes the entry
    named by the position's own [order_book_id]. *)
Definition settlement_step (env : Environment) (s : StockAccount)
  (item : string * Position) : StockAccount :=
  let '(k, position) := item in
  let order_book_id := order_book_id position in
  if decide (is_de_listed position = true ∧ quantity position ≠ 0) then
    let s :=
      if cash_return_by_stock_delisted env
      then set_total_cash s (_total_cash s + market_value position)
      else s in
    set_positions s (delete order_book_id (_positions s))
  else if decide (quantity position = 0) then
    set_positions s (delete order_book_id (_positions s))
  else
    set_positions s (alter apply_settlement k (_positions s)).

Definition _on_settlement (env : Environment) (s : StockAccount)
  (event_trading_dt : datetime) : result StockAccount :=
  let s := foldl (settlement_step env) s (map_to_list (_positions s)) in
  let s := set_backward_trade_set s ∅ in
  _handle_dividend_book_closure env s (dt_date event_trading_dt).

(** [register_event]: the events the account listens to, each with what
    it carries, and the handler bound to it. *)
Inductive EVENT :=
  | TRADE (trade : Trade)
  | ORDER_PENDING_NEW (o : Order)
  | ORDER_CREATION_REJECT (o : Order)
  | ORDER_UNSOLICITED_UPDATE (o : Order)
  | ORDER_CANCELLATION_PASS (o : Order)
  | PRE_BEFORE_TRADING
  | PRE_AFTER_TRADING
  | SETTLEMENT (event_trading_dt : datetime).

Definition handle (env : Environment) (s : StockAccount) (event : EVENT)
  : result StockAccount :=
  match event with
  | TRADE trade => Ok (_on_trade s trade)
  | ORDER_PENDING_NEW o => Ok (_on_order_pending_new s o)
  | ORDER_CREATION_REJECT o => Ok (_on_order_unsolicited_update s o)
  | ORDER_UNSOLICITED_UPDATE o => Ok (_on_order_unsolicited_update s o)
  | ORDER_CANCELLATION_PASS o => Ok (_on_order_unsolicited_update s o)
  | PRE_BEFORE_TRADING => _before_trading env s
  | PRE_AFTER_TRADING => Ok (_after_trading s)
  | SETTLEMENT event_trading_dt => _on_settlement env s event_trading_dt
  end.

(** Events delivered in order while the environment (clock, configuration,
    data) stays as it is. *)
Definition run (env : Environment) (s : StockAccount) (events : list EVENT)
  : result StockAccount :=
  for_each (handle env) events s.

(** A session: the handlers read [Environment.get_instance()] at every
    event, so each event comes with the environment of the moment it is
    delivered (the clock advances from one trading day to the next). *)
Definition run_session (s : StockAccount)
  (events : list (Environment * EVENT)) : result StockAccount :=
  for_each (λ s timed, handle timed.1 s timed.2) events s.

(** Modelled from the spec: [BaseAccount.market_value] is not part of this
    module; it is the aggregate market value of all positions, each one
    read from its position record. *)
Definition BaseAccount_market_value (s : StockAccount) : Qc :=
  foldr (λ item acc, market_value item.2 + acc) 0
    (map_to_list (_positions s)).

(** The property [total_value]. *)
Definition total_value (s : StockAccount) : Qc :=
  BaseAccount_market_value s.

(** The property [dividend_receivable].  [six.iteritems] yields the pairs
    [(order_book_id, record)]; the generator subscripts each item it is
    given with a string.  Subscripting a tuple with a string raises
    [TypeError]; subscripting a record returns the entry, or raises
    [KeyError] when the record has no number under that key. *)
Inductive py_item :=
  | ItemPair (k : string) (d : Dividend)
  | ItemRecord (d : Dividend).

Definition getitem (d : py_item) (key : string) : result Qc :=
  match d with
  | ItemPair _ _ => Raise TypeError
  | ItemRecord r =>
      if decide (key = "quantity") then Ok (d_quantity r)
      else if decide (key = "dividend_per_share")
           then Ok (d_dividend_per_share r)
           else Raise KeyError
  end.

Definition iteritems (m : gmap string Dividend) : list py_item :=
  (λ kd, ItemPair kd.1 kd.2) <$> map_to_list m.

Definition itervalues (m : gmap string Dividend) : list py_item :=
  (λ kd, ItemRecord kd.2) <$> map_to_list m.

(** The builtin [sum] over a generator: the elements are computed one by
    one and added to the total, which starts at 0. *)
Definition py_sum {A : Type} (element : A → result Qc) (l : list A)
  : result Qc :=
  for_each (λ total x, v ← element x; Ok (total + v)) l 0.

Definition dividend_receivable_element (d : py_item) : result Qc :=
  q ← getitem d "quantity";
  p ← getitem d "dividend_per_share";
  Ok (q * p).

Definition dividend_receivable (s : StockAccount) : result Qc :=
  py_sum dividend_receivable_element (iteritems (_dividend_receivable s)).

(** The aggregate as the specification words it: the sum over the
    pending-dividend records of quantity times dividend per share. *)
Definition dividend_receivable_spec (s : StockAccount) : Qc :=
  foldr (λ kd acc, d_quantity kd.2 * d_dividend_per_share kd.2 + acc) 0
    (map_to_list (_dividend_receivable s)).

(** The total value as the specification words it: the cash plus the
    aggregate market value of the positions. *)
Definition total_value_spec (s : StockAccount) : Qc :=
  _total_cash s + BaseAccount_market_value s.

(** ** Processing a history through the live handlers

    The incremental processing the specification compares [fast_forward]
    with: every order is announced to [_on_order_pending_new], every trade
    is delivered to [_on_trade], and every order that ended in a final
    state has its terminal event delivered to
    [_on_order_unsolicited_update].  An order of the history is read as
    the handlers read it: its [quantity] when it is announced, its
    [unfilled_quantity] once it is final. *)
Definition live_terminal (s : StockAccount) (o : Order) : StockAccount :=
  if _is_final o then _on_order_unsolicited_update s o else s.

Definition incremental (s : StockAccount) (orders : list Order)
  (trades : list Trade) : StockAccount :=
  let s := foldl _on_order_pending_new s orders in
  let s := foldl _on_trade s trades in
  foldl live_terminal s orders.

(** ** Construction and the shared default set

    [def __init__(self, total_cash, positions, backward_trade_set=set(),
    dividend_receivable=None)]: the default [set()] is one object, made
    when the [def] is executed.  The sets live in a heap; an account
    object refers to its set by a location.  The handlers change the set
    in place ([add], [clear]), so running a handler on an account object
    reads the set at the account's location and writes it back there. *)
Definition loc := nat.

Record AccountObject := {
  obj_total_cash : Qc;
  obj_frozen_cash : Qc;
  obj_positions : gmap string Position;
  obj_backward_trade_set : loc;
  obj_dividend_receivable : gmap string Dividend;
}.

(** The location of the set made for the default argument. *)
Definition default_backward_trade_set : loc := 0%nat.

(** Modelled from the spec: [BaseAccount.__init__] is not part of this
    module.  It keeps the cash, the positions and the dedup set it is
    given (the set itself, not a copy) and starts with no frozen cash. *)
Definition BaseAccount_init (total_cash : Qc)
  (positions : gmap string Position) (backward_trade_set : loc)
  : AccountObject :=
  {| obj_total_cash := total_cash; obj_frozen_cash := 0;
     obj_positions := positions;
     obj_backward_trade_set := backward_trade_set;
     obj_dividend_receivable := ∅ |}.

(** [StockAccount.__init__]; [None] for an argument that is not passed.
    An empty table is falsy and replaced by a fresh empty one. *)
Definition StockAccount_init (total_cash : Qc)
  (positions : gmap string Position) (backward_trade_set : option loc)
  (dividend_receivable : option (gmap string Dividend)) : AccountObject :=
  let self :=
    BaseAccount_init total_cash positions
      (default default_backward_trade_set backward_trade_set) in
  {| obj_total_cash := obj_total_cash self;
     obj_frozen_cash := obj_frozen_cash self;
     obj_positions := obj_positions self;
     obj_backward_trade_set := obj_backward_trade_set self;
     obj_dividend_receivable := default ∅ dividend_receivable |}.

Definition load (h : gmap loc (gset Z)) (a : AccountObject) : StockAccount :=
  {| _total_cash := obj_total_cash a; _frozen_cash := obj_frozen_cash a;
     _positions := obj_positions a;
     _backward_trade_set := default ∅ (h !! obj_backward_trade_set a);
     _dividend_receivable := obj_dividend_receivable a |}.

Definition store (h : gmap loc (gset Z)) (a : AccountObject)
  (s : StockAccount) : gmap loc (gset Z) * AccountObject :=
  (<[obj_backward_trade_set a := _backward_trade_set s]> h,
   {| obj_total_cash := _total_cash s; obj_frozen_cash := _frozen_cash s;
      obj_positions := _positions s;
      obj_backward_trade_set := obj_backward_trade_set a;
      obj_dividend_receivable := _dividend_receivable s |}).

(** Deliver a trade to the account object [a] in the heap [h]. *)
Definition deliver_trade (h : gmap loc (gset Z)) (a : AccountObject)
  (trade : Trade) : gmap loc (gset Z) * AccountObject :=
  store h a (_on_trade (load h a) trade).

(** Settle the account object [a] in the heap [h]: [clear] empties the
    set at the account's location. *)
Definition deliver_settlement (env : Environment) (h : gmap loc (gset Z))
  (a : AccountObject) (event_trading_dt : datetime)
  : result (gmap loc (gset Z) * AccountObject) :=
  s' ← _on_settlement env (load h a) event_trading_dt;
  Ok (store h a s').

(** ** Vocabulary of the statements *)

(** The store is keyed by the symbol of the position it holds. *)
Definition positions_wf (m : gmap string Position) : Prop :=
  map_Forall (λ k p, order_book_id p = k) m.

(** The data proxy has no dividend with a zero round lot on that date, and
    no split with a zero source coefficient. *)
Definition dividends_valid (env : Environment) (d : date) : Prop :=
  ∀ k dividend,
    get_dividend_by_book_date env k d = Some dividend →
    round_lot dividend ≠ 0.

Definition splits_valid (env : Environment) (d : date) : Prop :=
  ∀ k split,
    get_split_by_ex_date env k d = Some split →
    split_coefficient_from split ≠ 0.

(** What settlement does with one position: a position without quantity
    and a delisted one are dropped, any other one is rolled forward. *)
Definition settled (p : Position) : option Position :=
  if decide (quantity p = 0) then None
  else if is_de_listed p then None
  else Some (apply_settlement p).

(** The market value of the delisted positions that still hold a
    quantity. *)
Definition delisted_value_of (l : list (string * Position)) : Qc :=
  foldr (λ kp acc,
           if decide (is_de_listed kp.2 = true ∧ quantity kp.2 ≠ 0)
           then market_value kp.2 + acc else acc)
    0 l.

Definition delisted_value (m : gmap string Position) : Qc :=
  delisted_value_of (map_to_list m).

(** The record book closure enters for a position and a dividend. *)
Definition book_closure_record (p : Position) (dividend : DividendInfo)
  : Dividend :=
  {| d_quantity := quantity p;
     d_dividend_per_share :=
       dividend_cash_before_tax dividend / round_lot dividend;
     d_payable_date := dt_date (payable_date dividend) |}.

(** The dividends of a table that are payable on a date. *)
Definition due_total_of (l : list (string * Dividend)) (d : date) : Qc :=
  foldr (λ kd acc,
           if decide (d_payable_date kd.2 = d)
           then d_quantity kd.2 * d_dividend_per_share kd.2 + acc else acc)
    0 l.

Definition due_total (m : gmap string Dividend) (d : date) : Qc :=
  due_total_of (map_to_list m) d.

(** What the payment of the dividends due on [d] leaves of a record. *)
Definition unpaid (d : date) (r : Dividend) : option Dividend :=
  if decide (d_payable_date r = d) then None else Some r.

(** The frozen cash [fast_forward] computes from a list of orders. *)
Definition open_order_value (orders : list Order) : Qc :=
  foldr (λ o acc,
           if _is_final o then acc
           else _frozen_price o * o_unfilled_quantity o + acc)
    0 orders.

(** An event releases no more frozen cash than there is (and freezes no
    negative amount): the condition under which the frozen cash stays
    non-negative. *)
Definition release_covered (s : StockAccount) (event : EVENT) : Prop :=
  match event with
  | TRADE trade =>
      side trade = BUY →
      exec_id trade ∉ _backward_trade_set s →
      _frozen_price (order trade) * last_quantity trade ≤ _frozen_cash s
  | ORDER_PENDING_NEW o =>
      o_side o = BUY → 0 ≤ _frozen_price o * o_quantity o
  | ORDER_CREATION_REJECT o
  | ORDER_UNSOLICITED_UPDATE o
  | ORDER_CANCELLATION_PASS o =>
      o_side o = BUY →
      o_unfilled_quantity o * _frozen_price o ≤ _frozen_cash s
  | PRE_BEFORE_TRADING | PRE_AFTER_TRADING | SETTLEMENT _ => True
  end.

(** The corporate-action data an event reads is sound. *)
Definition event_data_valid (env : Environment) (event : EVENT) : Prop :=
  match event with
  | PRE_BEFORE_TRADING =>
      handle_split env = true → splits_valid env (dt_date (trading_dt env))
  | SETTLEMENT event_trading_dt =>
      dividends_valid env (dt_date event_trading_dt)
  | _ => True
  end.

(** The events of the day boundaries. *)
Definition is_boundary (event : EVENT) : bool :=
  match event with
  | PRE_BEFORE_TRADING | PRE_AFTER_TRADING | SETTLEMENT _ => true
  | _ => false
  end.

(** The cash and the frozen cash after one applied trade, computed as
    [_apply_trade] computes them: the cost is taken off first, then the
    traded value is taken off (buy) or added (any other side). *)
Definition cash_after_trade (cash : Qc) (trade : Trade) : Qc :=
  if decide (side trade = BUY)
  then cash - transaction_cost trade - last_quantity trade * last_price trade
  else cash - transaction_cost trade + last_price trade * last_quantity trade.

Definition frozen_cash_after_trade (frozen : Qc) (trade : Trade) : Qc :=
  if decide (side trade = BUY)
  then frozen - _frozen_price (order trade) * last_quantity trade
  else frozen.

(** What the split handling of a date does with the position held for a
    symbol. *)
Definition split_applied (env : Environment) (d : date) (k : string)
  (p : Position) : Position :=
  match get_split_by_ex_date env k d with
  | Some split =>
      split_ p (split_coefficient_to split / split_coefficient_from split)
  | None => p
  end.

(** The symbol whose position an event refers to. *)
Definition event_symbol (event : EVENT) : option string :=
  match event with
  | TRADE trade => Some (o_order_book_id (order trade))
  | ORDER_PENDING_NEW o
  | ORDER_CREATION_REJECT o
  | ORDER_UNSOLICITED_UPDATE o
  | ORDER_CANCELLATION_PASS o => Some (o_order_book_id o)
  | PRE_BEFORE_TRADING | PRE_AFTER_TRADING | SETTLEMENT _ => None
  end.

Definition is_order_event (event : EVENT) : bool :=
  match event with
  | ORDER_PENDING_NEW _ | ORDER_CREATION_REJECT _
  | ORDER_UNSOLICITED_UPDATE _ | ORDER_CANCELLATION_PASS _ => true
  | _ => false
  end.

(** A position that settlement keeps has a dividend with a zero round lot
    on the date; a position held has a split with a zero source
    coefficient on the date. *)
Definition zero_round_lot_held (env : Environment)
  (m : gmap string Position) (d : date) : Prop :=
  ∃ k p dividend,
    m !! k = Some p ∧ quantity p ≠ 0 ∧ is_de_listed p = false
    ∧ get_dividend_by_book_date env k d = Some dividend
    ∧ round_lot dividend = 0.

Definition zero_split_held (env : Environment)
  (m : gmap string Position) (d : date) : Prop :=
  ∃ k p split,
    m !! k = Some p
    ∧ get_split_by_ex_date env k d = Some split
    ∧ split_coefficient_from split = 0.

(** The same conditions on one item of a loop over the positions. *)
Definition zero_round_lot_at (env : Environment) (d : date)
  (kp : string * Position) : Prop :=
  match get_dividend_by_book_date env kp.1 d with
  | Some dividend => round_lot dividend = 0
  | None => False
  end.

Definition zero_split_at (env : Environment) (d : date)
  (kp : string * Position) : Prop :=
  match get_split_by_ex_date env kp.1 d with
  | Some split => split_coefficient_from split = 0
  | None => False
  end.

Global Instance zero_round_lot_at_dec env d kp :
  Decision (zero_round_lot_at env d kp).
Proof.
  unfold zero_round_lot_at.
  destruct (get_dividend_by_book_date env kp.1 d); apply _.
Defined.

Global Instance zero_split_at_dec env d kp :
  Decision (zero_split_at env d kp).
Proof.
  unfold zero_split_at.
  destruct (get_split_by_ex_date env kp.1 d); apply _.
Defined.

End Account.

(** ** A position record

    Modelled from the spec: the position class is not part of this module.
    The record holds what the account reads (symbol, quantity, market
    value as quantity times the last price, delisting status).  A trade
    applied to it adds the traded quantity on a buy and takes it off on a
    sell; a split multiplies the quantity by the ratio and divides the
    price by it; the notifications about orders, the end of trading and
    the settlement roll forward change none of these fields. *)
Record StockPosition := {
  sp_order_book_id : string;
  sp_quantity : Qc;
  sp_last_price : Qc;
  sp_de_listed : bool;
}.

Definition sp_with_quantity (p : StockPosition) (q : Qc) : StockPosition :=
  {| sp_order_book_id := sp_order_book_id p; sp_quantity := q;
     sp_last_price := sp_last_price p; sp_de_listed := sp_de_listed p |}.

Global Instance StockPosition_ops : PositionOps StockPosition := {|
  new_position k :=
    {| sp_order_book_id := k; sp_quantity := 0; sp_last_price := 0;
       sp_de_listed := false |};
  order_book_id := sp_order_book_id;
  quantity := sp_quantity;
  market_value p := sp_quantity p * sp_last_price p;
  is_de_listed := sp_de_listed;
  apply_trade_ p trade :=
    match side trade with
    | BUY => sp_with_quantity p (sp_quantity p + last_quantity trade)
    | SELL => sp_with_quantity p (sp_quantity p - last_quantity trade)
    end;
  on_order_pending_new_ p _ := p;
  on_order_cancel_ p _ := p;
  after_trading_ p := p;
  apply_settlement p := p;
  split_ p ratio :=
    {| sp_order_book_id := sp_order_book_id p;
       sp_quantity := sp_quantity p * ratio;
       sp_last_price := sp_last_price p / ratio;
       sp_de_listed := sp_de_listed p |};
|}.

(** ** The example scenario of the specification

    An account with a cash balance of 100000 and nothing else; a buy order
    for 100 shares frozen at 50; the trade that fills the 100 shares at
    49.9 for a transaction cost of 1. *)
Definition scenario_account : @StockAccount StockPosition :=
  {| _total_cash := Qc_of_Z 100000; _frozen_cash := 0; _positions := ∅;
     _backward_trade_set := ∅; _dividend_receivable := ∅ |}.

Definition scenario_order : Order :=
  {| o_order_book_id := "000001.XSHE"; o_side := BUY;
     o_quantity := Qc_of_Z 100; o_unfilled_quantity := Qc_of_Z 100;
     _frozen_price := Qc_of_Z 50; _is_final := false |}.

Definition scenario_trade : Trade :=
  {| exec_id := 1%Z; order := scenario_order; side := BUY;
     last_quantity := Qc_of_Z 100; last_price := Q2Qc (499 # 10);
     transaction_cost := Qc_of_Z 1 |}.

(** The same account with one dividend pending: 100 shares at 0.5 per
    share, payable on day 10. *)
Definition scenario_dividend : Dividend :=
  {| d_quantity := Qc_of_Z 100; d_dividend_per_share := Q2Qc (1 # 2);
     d_payable_date := 10%Z |}.

Definition account_with_dividend : @StockAccount StockPosition :=
  set_dividend_receivable scenario_account
    {["000001.XSHE" := scenario_dividend]}.

(** A sell order for 100 shares, frozen at 50, still open. *)
Definition scenario_sell_order : Order :=
  {| o_order_book_id := "000001.XSHE"; o_side := SELL;
     o_quantity := Qc_of_Z 100; o_unfilled_quantity := Qc_of_Z 100;
     _frozen_price := Qc_of_Z 50; _is_final := false |}.

(** An account at the settlement of day 5: a position that was sold out,
    a delisted one that still holds 10 shares at a price of 2, and one of
    100 shares at a price of 5 on which a dividend of 5 per round lot of
    10 is declared, payable on day 10. *)
Definition sold_out_position : StockPosition :=
  {| sp_order_book_id := "000002.XSHE"; sp_quantity := 0;
     sp_last_price := Qc_of_Z 3; sp_de_listed := false |}.

Definition delisted_position : StockPosition :=
  {| sp_order_book_id := "000003.XSHE"; sp_quantity := Qc_of_Z 10;
     sp_last_price := Qc_of_Z 2; sp_de_listed := true |}.

Definition held_position : StockPosition :=
  {| sp_order_book_id := "000001.XSHE"; sp_quantity := Qc_of_Z 100;
     sp_last_price := Qc_of_Z 5; sp_de_listed := false |}.

Definition settlement_account : @StockAccount StockPosition :=
  {| _total_cash := Qc_of_Z 1000; _frozen_cash := 0;
     _positions :=
       <["000002.XSHE" := sold_out_position]>
         (<["000003.XSHE" := delisted_position]>
            {["000001.XSHE" := held_position]});
     _backward_trade_set := {[1%Z]}; _dividend_receivable := ∅ |}.

Definition declared_dividend : DividendInfo :=
  {| dividend_cash_before_tax := Qc_of_Z 5; round_lot := Qc_of_Z 10;
     payable_date := {| dt_date := 10%Z; dt_seconds := 0%Z |} |}.

Definition settlement_day : datetime :=
  {| dt_date := 5%Z; dt_seconds := 0%Z |}.

Definition settlement_env : Environment :=
  {| trading_dt := settlement_day;
     handle_split := true;
     cash_return_by_stock_delisted := true;
     get_dividend_by_book_date := λ k d,
       if decide (k = "000001.XSHE" ∧ d = 5%Z)
       then Some declared_dividend else None;
     get_split_by_ex_date := λ _ _, None |}.

(** The account after that settlement, and the environment of day 10. *)
Definition account_before_payment : @StockAccount StockPosition :=
  {| _total_cash := Qc_of_Z 1020; _frozen_cash := 0;
     _positions := {["000001.XSHE" := held_position]};
     _backward_trade_set := ∅;
     _dividend_receivable :=
       {["000001.XSHE" :=
           {| d_quantity := Qc_of_Z 100;
              d_dividend_per_share := Qc_of_Z 5 / Qc_of_Z 10;
              d_payable_date := 10%Z |}]} |}.

Definition payment_env : Environment :=
  {| trading_dt := {| dt_date := 10%Z; dt_seconds := 0%Z |};
     handle_split := true;
     cash_return_by_stock_delisted := true;
     get_dividend_by_book_date := λ _ _, None;
     get_split_by_ex_date := λ _ _, None |}.

(** An environment without corporate actions, at day 1. *)
Definition quiet_env : Environment :=
  {| trading_dt := {| dt_date := 1%Z; dt_seconds := 0%Z |};
     handle_split := true;
     cash_return_by_stock_delisted := true;
     get_dividend_by_book_date := λ _ _, None;
     get_split_by_ex_date := λ _ _, None |}.

(** * Properties *)

(** A sale of 100 shares at 51 for a transaction cost of 1. *)
Definition scenario_sell_trade : Trade :=
  {| exec_id := 3%Z; order := scenario_sell_order; side := SELL;
     last_quantity := Qc_of_Z 100; last_price := Qc_of_Z 51;
     transaction_cost := Qc_of_Z 1 |}.

(** Day 5 with a dividend declared on a zero round lot, and with a split
    declared from a zero coefficient. *)
Definition broken_dividend : DividendInfo :=
  {| dividend_cash_before_tax := Qc_of_Z 5; round_lot := 0;
     payable_date := {| dt_date := 10%Z; dt_seconds := 0%Z |} |}.

Definition broken_env : Environment :=
  {| trading_dt := settlement_day;
     handle_split := true;
     cash_return_by_stock_delisted := true;
     get_dividend_by_book_date := λ k d,
       if decide (k = "000001.XSHE" ∧ d = 5%Z)
       then Some broken_dividend else None;
     get_split_by_ex_date := λ k d,
       if decide (k = "000001.XSHE" ∧ d = 5%Z)
       then Some {| split_coefficient_from := 0;
                    split_coefficient_to := Qc_of_Z 2 |}
       else None |}.

(** Day 5 with a split of one share into two. *)
Definition split_env : Environment :=
  {| trading_dt := settlement_day;
     handle_split := true;
     cash_return_by_stock_delisted := true;
     get_dividend_by_book_date := λ _ _, None;
     get_split_by_ex_date := λ k d,
       if decide (k = "000001.XSHE" ∧ d = 5%Z)
       then Some {| split_coefficient_from := Qc_of_Z 1;
                    split_coefficient_to := Qc_of_Z 2 |}
       else None |}.

(** The position record meets what the account relies on. *)
Global Instance StockPosition_laws : PositionLaws StockPosition.
Proof. split; reflexivity. Qed.

Global Instance StockPosition_keeps_symbol : PositionKeepsSymbol StockPosition.
Proof. split; try reflexivity. intros p trade. cbn. by destruct (side trade). Qed.

(** Equalities and inequalities between closed rationals. *)
Ltac qc_eq := apply Qc_is_canon; vm_compute; reflexivity.
Ltac qc_le := unfold Qcle; vm_compute; discriminate.

Section Properties.
Context {Position : Type} `{!PositionOps Position}.
Implicit Types (s : @StockAccount Position) (trade : Trade) (o : Order).

(** ** Trade application *)

Lemma apply_trade_duplicate s trade :
  exec_id trade ∈ _backward_trade_set s → _apply_trade s trade = s.
Proof. intros Hin. unfold _apply_trade. by rewrite decide_True. Qed.

Lemma apply_trade_records s trade :
  exec_id trade ∈ _backward_trade_set (_apply_trade s trade).
Proof.
  unfold _apply_trade. case_decide as Hin; [done|].
  unfold apply_trade_body.
  destruct (get_or_create _ _) as [m position]. cbn. set_solver.
Qed.

(** C1.  A trade whose execution id is in the dedup set leaves the whole
    account (cash, frozen cash, positions, dedup set, dividend table) as
    it is; hence applying a trade twice gives the same account as
    applying it once. *)
Theorem apply_trade_idempotent s trade :
  (exec_id trade ∈ _backward_trade_set s → _apply_trade s trade = s)
  ∧ _apply_trade (_apply_trade s trade) trade = _apply_trade s trade.
Proof.
  split; [apply apply_trade_duplicate|].
  apply apply_trade_duplicate, apply_trade_records.
Qed.

Lemma apply_trade_new s trade :
  exec_id trade ∉ _backward_trade_set s →
  _apply_trade s trade = apply_trade_body s trade.
Proof. intros Hnew. unfold _apply_trade. by rewrite decide_False. Qed.

Lemma apply_trade_body_total_cash s trade :
  _total_cash (apply_trade_body s trade) =
    if decide (side trade = BUY)
    then _total_cash s - transaction_cost trade
         - last_quantity trade * last_price trade
    else _total_cash s - transaction_cost trade
         + last_price trade * last_quantity trade.
Proof.
  unfold apply_trade_body. destruct (get_or_create _ _) as [m position].
  by case_decide.
Qed.

Lemma apply_trade_body_frozen_cash s trade :
  _frozen_cash (apply_trade_body s trade) =
    if decide (side trade = BUY)
    then _frozen_cash s - _frozen_price (order trade) * last_quantity trade
    else _frozen_cash s.
Proof.
  unfold apply_trade_body. destruct (get_or_create _ _) as [m position].
  by case_decide.
Qed.

Lemma apply_trade_body_backward_trade_set s trade :
  _backward_trade_set (apply_trade_body s trade) =
    {[exec_id trade]} ∪ _backward_trade_set s.
Proof.
  unfold apply_trade_body. destruct (get_or_create _ _) as [m position].
  by case_decide.
Qed.

Lemma apply_trade_body_positions s trade :
  _positions (apply_trade_body s trade) =
    let k := o_order_book_id (order trade) in
    let held := default (new_position k) (_positions s !! k) in
    if decide (side trade = BUY)
    then <[k := apply_trade_ held trade]> (_positions s)
    else <[k := held]> (_positions s).
Proof.
  unfold apply_trade_body, get_or_create. cbn.
  destruct (_positions s !! _) as [p|] eqn:Hk; cbn.
  - case_decide; cbn; [done|]. by rewrite insert_id.
  - case_decide; cbn; [|done]. by rewrite insert_insert_eq.
Qed.

(** ** Settlement *)

Section settlement.
Context `{!PositionLaws Position}.
Variable env : Environment.

Lemma settlement_step_fields s kp :
  let s' := settlement_step env s kp in
  _frozen_cash s' = _frozen_cash s
  ∧ _backward_trade_set s' = _backward_trade_set s
  ∧ _dividend_receivable s' = _dividend_receivable s
  ∧ _total_cash s' =
      _total_cash s
      + (if cash_return_by_stock_delisted env
         then delisted_value_of [kp] else 0).
Proof.
  destruct kp as [k p]. unfold settlement_step, delisted_value_of. cbn.
  destruct (decide (is_de_listed p = true ∧ quantity p ≠ 0)).
  - destruct (cash_return_by_stock_delisted env); cbn;
      (split; [reflexivity|split; [reflexivity|split; [reflexivity|ring]]]).
  - destruct (decide (quantity p = 0));
      destruct (cash_return_by_stock_delisted env); cbn;
      (split; [reflexivity|split; [reflexivity|split; [reflexivity|ring]]]).
Qed.

Lemma settlement_step_positions s k p :
  _positions (settlement_step env s (k, p)) =
    if decide (is_de_listed p = true ∧ quantity p ≠ 0)
    then delete (order_book_id p) (_positions s)
    else if decide (quantity p = 0)
         then delete (order_book_id p) (_positions s)
         else alter apply_settlement k (_positions s).
Proof.
  unfold settlement_step.
  destruct (decide (is_de_listed p = true ∧ quantity p ≠ 0)).
  - by destruct (cash_return_by_stock_delisted env).
  - by destruct (decide (quantity p = 0)).
Qed.

Lemma settlement_loop (l : list (string * Position)) s :
  NoDup l.*1 →
  (∀ k p, (k, p) ∈ l → order_book_id p = k ∧ _positions s !! k = Some p) →
  let s' := foldl (settlement_step env) s l in
  _frozen_cash s' = _frozen_cash s
  ∧ _backward_trade_set s' = _backward_trade_set s
  ∧ _dividend_receivable s' = _dividend_receivable s
  ∧ _total_cash s' =
      _total_cash s
      + (if cash_return_by_stock_delisted env then delisted_value_of l else 0)
  ∧ ∀ k, _positions s' !! k =
           match (list_to_map l : gmap string Position) !! k with
           | Some p => settled p
           | None => _positions s !! k
           end.
Proof.
  revert s. induction l as [|[k0 p0] l IH]; intros s Hnd Hl.
  { cbn. split; [done|]. split; [done|]. split; [done|]. split; [|done].
    destruct (cash_return_by_stock_delisted env); ring. }
  apply list.NoDup_cons in Hnd as [Hk0 Hnd].
  destruct (Hl k0 p0) as [Hid Hp0]; [left|].
  cbn [foldl]. set (s1 := settlement_step env s (k0, p0)).
  pose proof (settlement_step_positions s k0 p0) as Hpos. fold s1 in Hpos.
  rewrite Hid in Hpos.
  assert (Hother : ∀ k, k ≠ k0 → _positions s1 !! k = _positions s !! k).
  { intros k Hne. rewrite Hpos.
    destruct (decide (is_de_listed p0 = true ∧ quantity p0 ≠ 0));
      [by rewrite lookup_delete_ne|].
    destruct (decide (quantity p0 = 0));
      [by rewrite lookup_delete_ne|by rewrite lookup_alter_ne]. }
  assert (Hself : _positions s1 !! k0 = settled p0).
  { rewrite Hpos. unfold settled.
    destruct (decide (is_de_listed p0 = true ∧ quantity p0 ≠ 0)) as [[Hd Hq]|Hn].
    - rewrite lookup_delete_eq, Hd. by destruct (decide (quantity p0 = 0)).
    - destruct (decide (quantity p0 = 0)) as [Hq|Hq];
        [by rewrite lookup_delete_eq|].
      rewrite lookup_alter_eq, Hp0. cbn.
      destruct (is_de_listed p0); [|done]. by destruct Hn. }
  destruct (IH s1 Hnd) as (Hf & Hb & Hd & Hc & Hp).
  { intros k p Hin. destruct (Hl k p) as [? ?]; [by right|]. split; [done|].
    rewrite Hother; [done|]. intros ->. apply Hk0.
    apply list_elem_of_fmap. by exists (k0, p). }
  destruct (settlement_step_fields s (k0, p0)) as (Hf1 & Hb1 & Hd1 & Hc1).
  fold s1 in Hf1, Hb1, Hd1, Hc1.
  split; [by rewrite Hf|]. split; [by rewrite Hb|]. split; [by rewrite Hd|].
  split.
  - rewrite Hc, Hc1. unfold delisted_value_of. cbn.
    destruct (cash_return_by_stock_delisted env); [|ring].
    destruct (decide (is_de_listed p0 = true ∧ quantity p0 ≠ 0)); ring.
  - intros k. rewrite Hp. cbn [list_to_map foldr].
    destruct (decide (k = k0)) as [->|Hne].
    + rewrite lookup_insert_eq.
      by rewrite (not_elem_of_list_to_map_1 _ k0).
    + rewrite lookup_insert_ne by done. by rewrite Hother.
Qed.

Lemma settlement_loop_fields (l : list (string * Position)) s :
  let s' := foldl (settlement_step env) s l in
  _frozen_cash s' = _frozen_cash s
  ∧ _backward_trade_set s' = _backward_trade_set s
  ∧ _dividend_receivable s' = _dividend_receivable s.
Proof.
  revert s. induction l as [|kp l IH]; intros s; [done|]. cbn [foldl].
  destruct (IH (settlement_step env s kp)) as (-> & -> & ->).
  destruct (settlement_step_fields s kp) as (? & ? & ? & _). done.
Qed.

Lemma book_closure_step_returns (d : date) s k p :
  dividends_valid env d →
  dividend_book_closure_step env d s (k, p) =
    Ok match get_dividend_by_book_date env k d with
       | Some dividend =>
           set_dividend_receivable s
             (<[k := book_closure_record p dividend]> (_dividend_receivable s))
       | None => s
       end.
Proof.
  intros Hvalid. unfold dividend_book_closure_step.
  destruct (get_dividend_by_book_date env k d) as [dividend|] eqn:Hdiv;
    [|done].
  unfold py_div. rewrite decide_False by by eapply Hvalid. done.
Qed.

Lemma book_closure_loop (d : date) (l : list (string * Position)) s :
  dividends_valid env d →
  NoDup l.*1 →
  ∃ s', for_each (dividend_book_closure_step env d) l s = Ok s'
    ∧ _total_cash s' = _total_cash s
    ∧ _frozen_cash s' = _frozen_cash s
    ∧ _positions s' = _positions s
    ∧ _backward_trade_set s' = _backward_trade_set s
    ∧ ∀ k, _dividend_receivable s' !! k =
        match (list_to_map l : gmap string Position) !! k,
              get_dividend_by_book_date env k d with
        | Some p, Some dividend => Some (book_closure_record p dividend)
        | _, _ => _dividend_receivable s !! k
        end.
Proof.
  intros Hvalid. revert s. induction l as [|[k0 p0] l IH]; intros s Hnd.
  { exists s. cbn. repeat split. }
  rewrite fmap_cons in Hnd. apply list.NoDup_cons in Hnd as [Hk0 Hnd].
  assert (Hnone : (list_to_map l : gmap string Position) !! k0 = None)
    by by apply not_elem_of_list_to_map_1.
  cbn [for_each]. rewrite book_closure_step_returns by done.
  match goal with |- context [Ok ?s1 ≫= _] =>
    destruct (IH s1 Hnd) as (s' & Hrun & Hc & Hf & Hp & Hb & Ht) end.
  exists s'. split; [exact Hrun|].
  destruct (get_dividend_by_book_date env k0 d) as [dividend|] eqn:Hdiv.
  - split; [done|]. split; [done|]. split; [done|]. split; [done|].
    intros k. rewrite Ht. cbn [list_to_map foldr].
    destruct (decide (k = k0)) as [->|Hne].
    + rewrite Hnone, lookup_insert_eq, Hdiv. cbn. by rewrite lookup_insert_eq.
    + rewrite lookup_insert_ne by done. cbn. by rewrite lookup_insert_ne.
  - split; [done|]. split; [done|]. split; [done|]. split; [done|].
    intros k. rewrite Ht. cbn [list_to_map foldr].
    destruct (decide (k = k0)) as [->|Hne].
    + by rewrite Hnone, lookup_insert_eq, Hdiv.
    + by rewrite lookup_insert_ne.
Qed.

Lemma handle_dividend_book_closure_spec (d : date) s :
  dividends_valid env d →
  ∃ s', _handle_dividend_book_closure env s d = Ok s'
    ∧ _total_cash s' = _total_cash s
    ∧ _frozen_cash s' = _frozen_cash s
    ∧ _positions s' = _positions s
    ∧ _backward_trade_set s' = _backward_trade_set s
    ∧ ∀ k, _dividend_receivable s' !! k =
        match _positions s !! k, get_dividend_by_book_date env k d with
        | Some p, Some dividend => Some (book_closure_record p dividend)
        | _, _ => _dividend_receivable s !! k
        end.
Proof.
  intros Hvalid. unfold _handle_dividend_book_closure.
  destruct (book_closure_loop d (map_to_list (_positions s)) s Hvalid)
    as (s' & Hrun & Hc & Hf & Hp & Hb & Ht);
    [apply NoDup_fst_map_to_list|].
  exists s'. split; [done|]. split; [done|]. split; [done|].
  split; [done|]. split; [done|].
  intros k. rewrite Ht. by rewrite list_to_map_to_list.
Qed.

(** Settlement returns whenever the dividend data is sound; it empties the
    dedup set and does not touch the frozen cash. *)
Lemma on_settlement_returns s (dt : datetime) :
  dividends_valid env (dt_date dt) →
  ∃ s', _on_settlement env s dt = Ok s'
    ∧ _frozen_cash s' = _frozen_cash s
    ∧ _backward_trade_set s' = ∅.
Proof.
  intros Hvalid. unfold _on_settlement.
  set (s1 := foldl _ _ _).
  destruct (handle_dividend_book_closure_spec (dt_date dt)
              (set_backward_trade_set s1 ∅) Hvalid)
    as (s' & Hrun & _ & Hf & _ & Hb & _).
  exists s'. split; [done|]. rewrite Hf, Hb. cbn. split; [|done].
  apply settlement_loop_fields.
Qed.

(** The account after settlement, for a store keyed by symbol. *)
Lemma on_settlement_spec s (dt : datetime) :
  positions_wf (_positions s) →
  dividends_valid env (dt_date dt) →
  ∃ s', _on_settlement env s dt = Ok s'
    ∧ _frozen_cash s' = _frozen_cash s
    ∧ _backward_trade_set s' = ∅
    ∧ _total_cash s' =
        _total_cash s
        + (if cash_return_by_stock_delisted env
           then delisted_value (_positions s) else 0)
    ∧ _positions s' = omap settled (_positions s)
    ∧ ∀ k, _dividend_receivable s' !! k =
        match _positions s !! k ≫= settled,
              get_dividend_by_book_date env k (dt_date dt) with
        | Some p, Some dividend => Some (book_closure_record p dividend)
        | _, _ => _dividend_receivable s !! k
        end.
Proof.
  intros Hwf Hvalid. unfold _on_settlement.
  destruct (settlement_loop (map_to_list (_positions s)) s)
    as (Hf1 & Hb1 & Hd1 & Hc1 & Hp1).
  { apply NoDup_fst_map_to_list. }
  { intros k p Hin%elem_of_map_to_list. split; [by apply Hwf|done]. }
  set (s1 := foldl _ _ _) in *.
  assert (Hpos : _positions s1 = omap settled (_positions s)).
  { apply map_eq. intros k. rewrite Hp1, list_to_map_to_list, lookup_omap.
    by destruct (_positions s !! k). }
  destruct (handle_dividend_book_closure_spec (dt_date dt)
              (set_backward_trade_set s1 ∅) Hvalid)
    as (s' & Hrun & Hc & Hf & Hp & Hb & Ht).
  exists s'. split; [done|]. cbn in Hc, Hf, Hp, Hb, Ht.
  split; [by rewrite Hf|]. split; [done|]. split; [by rewrite Hc|].
  split; [by rewrite Hp|].
  intros k. rewrite Ht, Hpos, lookup_omap, Hd1. done.
Qed.


(** C7.  Settlement empties the dedup set: a trade that was applied and
    recorded before a settlement and is delivered again after it is not
    skipped; the whole body of [_apply_trade] runs on it: the cash goes
    down by the cost and by the traded value (up by the value on a sell),
    the frozen cash of a buy is released, and the id is recorded again. *)
Theorem dedup_window s0 (dt : datetime) trade :
  dividends_valid env (dt_date dt) →
  exec_id trade ∈ _backward_trade_set (_apply_trade s0 trade)
  ∧ ∃ s', _on_settlement env (_apply_trade s0 trade) dt = Ok s'
    ∧ _backward_trade_set s' = ∅
    ∧ _apply_trade s' trade = apply_trade_body s' trade
    ∧ _backward_trade_set (_apply_trade s' trade) = {[exec_id trade]}
    ∧ _total_cash (_apply_trade s' trade) =
        (if decide (side trade = BUY)
         then _total_cash s' - transaction_cost trade
              - last_quantity trade * last_price trade
         else _total_cash s' - transaction_cost trade
              + last_price trade * last_quantity trade)
    ∧ _frozen_cash (_apply_trade s' trade) =
        (if decide (side trade = BUY)
         then _frozen_cash s'
              - _frozen_price (order trade) * last_quantity trade
         else _frozen_cash s').
Proof.
  intros Hvalid. split; [apply apply_trade_records|].
  destruct (on_settlement_returns (_apply_trade s0 trade) dt Hvalid)
    as (s' & Hrun & _ & Hb).
  exists s'. split; [done|]. split; [done|].
  assert (Hnew : _apply_trade s' trade = apply_trade_body s' trade).
  { apply apply_trade_new. rewrite Hb. set_solver. }
  rewrite Hnew. split; [done|].
  rewrite apply_trade_body_backward_trade_set, Hb.
  split; [by rewrite union_empty_r_L|].
  split; [apply apply_trade_body_total_cash|apply apply_trade_body_frozen_cash].
Qed.

End settlement.

(** ** Dividends payable and splits *)

Section before_trading.

Lemma payable_loop_credit (d : date) (l : list (string * Dividend))
  (removed : list string) s :
  foldl (dividend_payable_step d) (removed, s) l =
    (removed ++ (filter (λ kd, d_payable_date kd.2 = d) l).*1,
     set_total_cash s (_total_cash s + due_total_of l d)).
Proof.
  revert removed s. induction l as [|[k r] l IH]; intros removed s.
  { cbn. rewrite app_nil_r. f_equal. destruct s. unfold set_total_cash. cbn.
    f_equal. ring. }
  cbn [foldl]. unfold dividend_payable_step at 2. cbn [due_total_of foldr snd].
  rewrite filter_cons. cbn [snd].
  destruct (decide (d_payable_date r = d)) as [Hdue|Hdue].
  - rewrite IH. rewrite fmap_cons, <-app_assoc. cbn. f_equal.
    unfold set_total_cash. cbn. f_equal. fold (due_total_of l d). ring.
  - rewrite IH. done.
Qed.

Lemma payable_loop_delete (keys : list string) s :
  let s' :=
    foldl (λ s k,
             set_dividend_receivable s (delete k (_dividend_receivable s)))
      s keys in
  _total_cash s' = _total_cash s
  ∧ _frozen_cash s' = _frozen_cash s
  ∧ _positions s' = _positions s
  ∧ _backward_trade_set s' = _backward_trade_set s
  ∧ ∀ k, _dividend_receivable s' !! k =
           if decide (k ∈ keys) then None else _dividend_receivable s !! k.
Proof.
  revert s. induction keys as [|k0 keys IH]; intros s.
  { cbn. repeat split. }
  cbn [foldl].
  destruct (IH (set_dividend_receivable s
                  (delete k0 (_dividend_receivable s))))
    as (-> & -> & -> & -> & Ht).
  repeat split. intros k. rewrite Ht. cbn.
  destruct (decide (k = k0)) as [->|Hne].
  - rewrite lookup_delete_eq, (decide_True (P := k0 ∈ k0 :: keys))
      by apply list_elem_of_here. by case_decide.
  - rewrite lookup_delete_ne by done.
    destruct (decide (k ∈ keys)) as [Hin|Hin].
    + by rewrite decide_True by by apply list_elem_of_further.
    + rewrite decide_False; [done|].
      intros [?|?]%elem_of_cons; [done|by apply Hin].
Qed.

Lemma handle_dividend_payable_spec s (d : date) :
  let s' := _handle_dividend_payable s d in
  _total_cash s' = _total_cash s + due_total (_dividend_receivable s) d
  ∧ _frozen_cash s' = _frozen_cash s
  ∧ _positions s' = _positions s
  ∧ _backward_trade_set s' = _backward_trade_set s
  ∧ ∀ k, _dividend_receivable s' !! k =
           _dividend_receivable s !! k ≫= unpaid d.
Proof.
  unfold _handle_dividend_payable. rewrite payable_loop_credit. cbn [app].
  match goal with |- context [foldl ?f ?s1 ?keys] =>
    destruct (payable_loop_delete keys s1) as (Hc & Hf & Hp & Hb & Ht) end.
  cbn zeta. rewrite Hc, Hf, Hp, Hb. repeat split.
  intros k. rewrite Ht. cbn [_dividend_receivable set_total_cash].
  case_decide as Hin.
  - apply list_elem_of_fmap in Hin as ([k' r] & -> & Hin).
    apply list_elem_of_filter in Hin as [Hdue Hin].
    apply elem_of_map_to_list in Hin. cbn in *. rewrite Hin. cbn.
    unfold unpaid. by rewrite decide_True.
  - destruct (_dividend_receivable s !! k) as [r|] eqn:Hk; [|done]. cbn.
    unfold unpaid. case_decide as Hdue; [|done]. destruct Hin.
    apply list_elem_of_fmap. exists (k, r). split; [done|].
    apply list_elem_of_filter. split; [done|]. by apply elem_of_map_to_list.
Qed.



Lemma split_step_returns (env : Environment) (d : date) s k p :
  splits_valid env d →
  ∃ s', split_step env d s (k, p) = Ok s'
    ∧ _total_cash s' = _total_cash s
    ∧ _frozen_cash s' = _frozen_cash s
    ∧ _backward_trade_set s' = _backward_trade_set s
    ∧ _dividend_receivable s' = _dividend_receivable s.
Proof.
  intros Hvalid. unfold split_step.
  destruct (get_split_by_ex_date env k d) as [split|] eqn:Hsplit;
    [|by exists s].
  unfold py_div. rewrite decide_False by by eapply Hvalid.
  eexists. split; [reflexivity|]. done.
Qed.

Lemma split_loop (env : Environment) (d : date)
  (l : list (string * Position)) s :
  splits_valid env d →
  ∃ s', for_each (split_step env d) l s = Ok s'
    ∧ _total_cash s' = _total_cash s
    ∧ _frozen_cash s' = _frozen_cash s
    ∧ _backward_trade_set s' = _backward_trade_set s
    ∧ _dividend_receivable s' = _dividend_receivable s.
Proof.
  intros Hvalid. revert s. induction l as [|[k p] l IH]; intros s.
  { by exists s. }
  cbn [for_each].
  destruct (split_step_returns env d s k p Hvalid)
    as (s1 & -> & <- & <- & <- & <-).
  apply IH.
Qed.

(** [_before_trading] returns whenever the split data is sound (or splits
    are not handled); it pays the dividends due on the trading date. *)
Lemma before_trading_spec (env : Environment) s :
  (handle_split env = true → splits_valid env (dt_date (trading_dt env))) →
  ∃ s', _before_trading env s = Ok s'
    ∧ _total_cash s' =
        _total_cash s
        + due_total (_dividend_receivable s) (dt_date (trading_dt env))
    ∧ _frozen_cash s' = _frozen_cash s
    ∧ _backward_trade_set s' = _backward_trade_set s
    ∧ ∀ k, _dividend_receivable s' !! k =
           _dividend_receivable s !! k ≫= unpaid (dt_date (trading_dt env)).
Proof.
  intros Hvalid. unfold _before_trading.
  destruct (handle_dividend_payable_spec s (dt_date (trading_dt env)))
    as (Hc & Hf & Hp & Hb & Ht).
  destruct (handle_split env) eqn:Hs.
  - unfold _handle_split.
    match goal with |- context [for_each ?f ?l ?s1] =>
      destruct (split_loop env (dt_date (trading_dt env)) l s1)
        as (s' & Hrun & Hc' & Hf' & Hb' & Ht') end; [by apply Hvalid|].
    exists s'. split; [done|]. rewrite Hc', Hf', Hb', Ht'. done.
  - eexists. split; [done|]. done.
Qed.


End before_trading.

(** ** The frozen cash *)

Lemma on_order_pending_new_frozen_cash s o :
  _frozen_cash (_on_order_pending_new s o) =
    if decide (o_side o = BUY)
    then _frozen_cash s + _frozen_price o * o_quantity o
    else _frozen_cash s.
Proof.
  unfold _on_order_pending_new. destruct (get_or_create _ _) as [m position].
  by case_decide.
Qed.

Lemma on_order_unsolicited_update_frozen_cash s o :
  _frozen_cash (_on_order_unsolicited_update s o) =
    if decide (o_side o = BUY)
    then _frozen_cash s - o_unfilled_quantity o * _frozen_price o
    else _frozen_cash s.
Proof.
  unfold _on_order_unsolicited_update.
  destruct (get_or_create _ _) as [m position]. by case_decide.
Qed.

Lemma Qcle_0_minus (x y : Qc) : x ≤ y → 0 ≤ y - x.
Proof. intros Hle. by apply Qcle_minus_iff in Hle. Qed.

(** C8, as the code has it.  No handler checks the frozen cash; it stays
    non-negative across an event as far as the event is consistent with
    it ([release_covered]):
    - a pending-new buy order freezes a value that is not negative;
    - a trade is a duplicate or a sell, or releases no more than is
      frozen;
    - a rejected, updated or cancelled order is a sell, or the unfilled
      value it releases is no more than is frozen.
    Before-trading, after-trading and settlement leave the frozen cash as
    it is.  Every handler returns (before-trading and settlement for sound
    split and dividend data). *)
Theorem frozen_cash_nonneg_preserved (env : Environment) s (event : EVENT) :
  0 ≤ _frozen_cash s →
  release_covered s event →
  event_data_valid env event →
  ∃ s', handle env s event = Ok s'
    ∧ 0 ≤ _frozen_cash s'
    ∧ (is_boundary event = true → _frozen_cash s' = _frozen_cash s).
Proof.
  intros Hpos Hcov Hvalid.
  destruct event as [trade|o|o|o|o| | |dt]; cbn in Hcov, Hvalid; cbn [handle].
  - eexists. split; [done|]. split; [|done].
    unfold _on_trade, _apply_trade.
    case_decide as Hdup; [done|]. rewrite apply_trade_body_frozen_cash.
    case_decide; [|done]. apply Qcle_0_minus; auto.
  - eexists. split; [done|]. split; [|done].
    rewrite on_order_pending_new_frozen_cash.
    case_decide; [|done]. apply Qcplus_nonneg_nonneg; auto.
  - eexists. split; [done|]. split; [|done].
    rewrite on_order_unsolicited_update_frozen_cash.
    case_decide; [|done]. apply Qcle_0_minus; auto.
  - eexists. split; [done|]. split; [|done].
    rewrite on_order_unsolicited_update_frozen_cash.
    case_decide; [|done]. apply Qcle_0_minus; auto.
  - eexists. split; [done|]. split; [|done].
    rewrite on_order_unsolicited_update_frozen_cash.
    case_decide; [|done]. apply Qcle_0_minus; auto.
  - destruct (before_trading_spec env s Hvalid) as (s' & Hrun & _ & Hf & _).
    exists s'. split; [done|]. by rewrite Hf.
  - eexists. split; [done|]. done.
  - destruct (on_settlement_returns env s dt Hvalid) as (s' & Hrun & Hf & _).
    exists s'. split; [done|]. by rewrite Hf.
Qed.

(** ** Fast forward *)

Lemma fast_forward_trade_eq s trade :
  fast_forward_trade s trade = _on_trade s trade.
Proof.
  unfold fast_forward_trade, _on_trade, _apply_trade. by case_decide.
Qed.

Lemma fast_forward_trades s trades :
  foldl fast_forward_trade s trades = foldl _on_trade s trades.
Proof.
  revert s. induction trades as [|trade trades IH]; intros s; [done|].
  cbn. by rewrite fast_forward_trade_eq, IH.
Qed.

Lemma fast_forward_orders s (c : Qc) orders :
  foldl fast_forward_order (set_frozen_cash s c) orders =
    set_frozen_cash s (c + open_order_value orders).
Proof.
  revert c. induction orders as [|o orders IH]; intros c.
  - cbn. unfold set_frozen_cash. f_equal. ring.
  - cbn [foldl]. unfold fast_forward_order at 2, open_order_value.
    cbn [foldr]. fold (open_order_value orders).
    destruct (_is_final o).
    + apply IH.
    + replace (set_frozen_cash (set_frozen_cash s c) _)
        with (set_frozen_cash s (c + _frozen_price o * o_unfilled_quantity o))
        by done.
      rewrite IH. unfold set_frozen_cash. f_equal. ring.
Qed.

Lemma fast_forward_spec s orders trades :
  fast_forward s orders trades =
    set_frozen_cash (foldl _on_trade s trades) (open_order_value orders).
Proof.
  unfold fast_forward. rewrite fast_forward_trades, fast_forward_orders.
  unfold set_frozen_cash. f_equal. ring.
Qed.

(** The live handlers, field by field. *)
Lemma on_order_pending_new_fields s o :
  let s' := _on_order_pending_new s o in
  _total_cash s' = _total_cash s
  ∧ _backward_trade_set s' = _backward_trade_set s
  ∧ _dividend_receivable s' = _dividend_receivable s.
Proof.
  unfold _on_order_pending_new. destruct (get_or_create _ _) as [m position].
  by case_decide.
Qed.

Lemma on_order_unsolicited_update_fields s o :
  let s' := _on_order_unsolicited_update s o in
  _total_cash s' = _total_cash s
  ∧ _backward_trade_set s' = _backward_trade_set s
  ∧ _dividend_receivable s' = _dividend_receivable s.
Proof.
  unfold _on_order_unsolicited_update.
  destruct (get_or_create _ _) as [m position]. by case_decide.
Qed.

(** ** Derived accessors *)

Lemma py_sum_first_raises {A : Type} (element : A → result Qc) x l e :
  element x = Raise e → py_sum element (x :: l) = Raise e.
Proof. intros Hx. unfold py_sum. cbn. by rewrite Hx. Qed.

(** Reading [dividend_receivable] returns 0 for an empty table and raises
    [TypeError] for any other one: the first item of [iteritems] is a
    pair, and the generator subscripts it with a string. *)
Lemma dividend_receivable_raises s :
  dividend_receivable s =
    if decide (_dividend_receivable s = ∅) then Ok 0 else Raise TypeError.
Proof.
  unfold dividend_receivable, iteritems.
  destruct (map_to_list (_dividend_receivable s)) as [|[k r] l] eqn:Hl.
  - apply map_to_list_empty_iff in Hl. by rewrite decide_True.
  - rewrite decide_False.
    + by apply py_sum_first_raises.
    + intros Hempty%map_to_list_empty_iff. congruence.
Qed.

Lemma dividend_receivable_element_record (r : Dividend) :
  dividend_receivable_element (ItemRecord r) =
    Ok (d_quantity r * d_dividend_per_share r).
Proof. reflexivity. Qed.

(** Over [itervalues] the same generator returns the sum the
    specification describes. *)
Lemma py_sum_itervalues (m : gmap string Dividend) acc :
  for_each (λ total x, v ← dividend_receivable_element x; Ok (total + v))
    (itervalues m) acc
  = Ok (acc + foldr (λ kd a, d_quantity kd.2 * d_dividend_per_share kd.2 + a)
                0 (map_to_list m)).
Proof.
  unfold itervalues. revert acc.
  induction (map_to_list m) as [|[k r] l IH]; intros acc.
  - cbn. f_equal. ring.
  - rewrite fmap_cons. cbn [for_each foldr snd].
    rewrite dividend_receivable_element_record. cbn [mbind result_bind].
    rewrite IH. f_equal. ring.
Qed.

(** [total_value] is the market value of the positions; the cash is not
    part of it. *)
Lemma total_value_without_cash s :
  total_value s = total_value_spec s - _total_cash s.
Proof. unfold total_value, total_value_spec. ring. Qed.

(** ** The shared default set *)

Lemma deliver_trade_records (h : gmap loc (gset Z)) (a : AccountObject)
  trade :
  ∃ ids, (deliver_trade h a trade).1 !! obj_backward_trade_set a = Some ids
         ∧ exec_id trade ∈ ids.
Proof.
  unfold deliver_trade, store. cbn [fst].
  eexists. split; [apply lookup_insert_eq|apply apply_trade_records].
Qed.

Lemma deliver_trade_duplicate (h : gmap loc (gset Z)) (a : AccountObject)
  trade ids :
  h !! obj_backward_trade_set a = Some ids →
  exec_id trade ∈ ids →
  deliver_trade h a trade = (h, a).
Proof.
  intros Hh Hin. unfold deliver_trade, _on_trade.
  rewrite (apply_trade_duplicate (load h a) trade).
  - unfold store, load. cbn. rewrite Hh. cbn. rewrite insert_id by done.
    by destruct a.
  - unfold load. cbn. by rewrite Hh.
Qed.

(** C10.  Two accounts constructed without a [backward_trade_set] argument
    refer to the same set: after a trade was delivered to the first one, a
    trade with the same execution id delivered to the second one changes
    neither the second account (its cash, frozen cash, positions, dividend
    table) nor the heap. *)
Theorem default_backward_trade_set_is_shared (h : gmap loc (gset Z))
  (cash1 cash2 : Qc) (positions1 positions2 : gmap string Position)
  (dividends1 dividends2 : option (gmap string Dividend)) trade trade' :
  exec_id trade' = exec_id trade →
  let a1 := StockAccount_init cash1 positions1 None dividends1 in
  let a2 := StockAccount_init cash2 positions2 None dividends2 in
  obj_backward_trade_set a1 = obj_backward_trade_set a2
  ∧ deliver_trade (deliver_trade h a1 trade).1 a2 trade'
    = ((deliver_trade h a1 trade).1, a2).
Proof.
  intros Hid a1 a2. split; [done|].
  destruct (deliver_trade_records h a1 trade) as (ids & Hids & Hin).
  apply (deliver_trade_duplicate _ a2 trade' ids); [exact Hids|].
  by rewrite Hid.
Qed.

End Properties.

(** C3 at a table with one record: the read raises [TypeError], where the
    specification (and the docstring of the property) has the amount
    receivable, 100 x 0.5 = 50. *)
Theorem dividend_receivable_type_error :
  dividend_receivable account_with_dividend = Raise TypeError
  ∧ dividend_receivable_spec account_with_dividend = Qc_of_Z 50
  ∧ dividend_receivable scenario_account = Ok 0.
Proof.
  split; [|split].
  - vm_compute. reflexivity.
  - qc_eq.
  - rewrite dividend_receivable_raises. reflexivity.
Qed.

(** C4 at the account of the scenario, which holds 100000 in cash and no
    position: [total_value] is 0, where the specification has 100000. *)
Theorem total_value_misses_cash :
  total_value scenario_account = 0
  ∧ total_value_spec scenario_account = Qc_of_Z 100000.
Proof. split; qc_eq. Qed.

(** C2 at an open sell order of 100 shares frozen at 50.  The live
    pending-new handler freezes cash for buy orders only and leaves the
    frozen cash at 0, and so does the live processing of the history;
    [fast_forward] has no test of the side and counts 100 x 50 = 5000 for
    the order, so its result is not the one of the live handlers. *)
Theorem fast_forward_freezes_sell_order :
  _frozen_cash (_on_order_pending_new scenario_account scenario_sell_order)
  = 0
  ∧ _frozen_cash (incremental scenario_account [scenario_sell_order] []) = 0
  ∧ _frozen_cash (fast_forward scenario_account [scenario_sell_order] [])
    = Qc_of_Z 5000
  ∧ fast_forward scenario_account [scenario_sell_order] []
    ≠ incremental scenario_account [scenario_sell_order] [].
Proof.
  split; [qc_eq|]. split; [qc_eq|]. split; [qc_eq|].
  intros Heq. apply (f_equal (λ s, this (_frozen_cash s))) in Heq.
  vm_compute in Heq. discriminate.
Qed.

(** ** The example scenario *)

(** C9, with the arithmetic of the code: the pending buy order freezes
    100 x 50 = 5000; the trade leaves a cash balance of
    100000 - 1 - 100 x 49.9 = 95009, no frozen cash, and a position of
    100 shares. *)
Theorem example_scenario :
  let s1 := _on_order_pending_new scenario_account scenario_order in
  let s2 := _on_trade s1 scenario_trade in
  _frozen_cash s1 = Qc_of_Z 5000
  ∧ _total_cash s2 = Qc_of_Z 95009
  ∧ _frozen_cash s2 = 0
  ∧ ∃ p, _positions s2 !! "000001.XSHE" = Some p
         ∧ quantity p = Qc_of_Z 100.
Proof.
  cbn zeta. split; [qc_eq|]. split; [qc_eq|]. split; [qc_eq|].
  eexists. split; [vm_compute; reflexivity|qc_eq].
Qed.

(** C9 as it is written gives a cash balance of 94 after the trade; the
    handlers leave 95009. *)
Lemma example_scenario_cash_is_not_94 :
  _total_cash
    (_on_trade (_on_order_pending_new scenario_account scenario_order)
       scenario_trade)
  ≠ Qc_of_Z 94.
Proof. intros Heq. apply (f_equal this) in Heq. vm_compute in Heq. discriminate. Qed.

(** C8 as it is written fails: the buy order of the scenario is
    announced and filled, which leaves no frozen cash; settlement empties
    the dedup set; the same trade, delivered once more, is applied again
    and releases another 5000 that are not frozen. *)
Lemma frozen_cash_goes_negative :
  ∃ s3 s4,
    run quiet_env scenario_account
      [ORDER_PENDING_NEW scenario_order; TRADE scenario_trade;
       SETTLEMENT {| dt_date := 1%Z; dt_seconds := 0%Z |}] = Ok s3
    ∧ 0 ≤ _frozen_cash s3
    ∧ handle quiet_env s3 (TRADE scenario_trade) = Ok s4
    ∧ _frozen_cash s4 = - Qc_of_Z 5000
    ∧ ¬ 0 ≤ _frozen_cash s4.
Proof.
  eexists. eexists. split; [vm_compute; reflexivity|].
  split; [qc_le|]. split; [reflexivity|]. split; [qc_eq|].
  intros Hle. apply Hle. vm_compute. reflexivity.
Qed.

(** ** The statements at the example data *)

(** The settlement of day 5 turns [settlement_account] into
    [account_before_payment]: the sold-out and the delisted position are
    gone, the 10 x 2 of the delisted one are credited, the dedup set is
    empty and the declared dividend is pending. *)
Example settlement_example :
  _on_settlement settlement_env settlement_account settlement_day
  = Ok account_before_payment.
Proof.
  assert (Hrun :
    ∃ s', _on_settlement settlement_env settlement_account settlement_day
          = Ok s'
      ∧ this (_total_cash s') = this (Qc_of_Z 1020)
      ∧ this (_frozen_cash s') = 0%Q
      ∧ _positions s' = _positions account_before_payment
      ∧ _backward_trade_set s' = ∅
      ∧ _dividend_receivable s' = _dividend_receivable account_before_payment).
  { eexists. split; [vm_compute; reflexivity|].
    cbn [_total_cash _frozen_cash _positions _backward_trade_set
           _dividend_receivable].
    repeat split; vm_compute; reflexivity. }
  destruct Hrun as (s' & -> & Hc & Hf & Hp & Hb & Hd). f_equal.
  destruct s'; cbn in *. unfold account_before_payment. f_equal; try done.
  - by apply Qc_is_canon; rewrite Hc.
  - by apply Qc_is_canon; rewrite Hf.
Qed.

Lemma settlement_env_dividends_valid :
  dividends_valid settlement_env (dt_date settlement_day).
Proof.
  intros k dividend. cbn. case_decide; [|done]. intros [= <-] Heq.
  apply (f_equal this) in Heq. vm_compute in Heq. discriminate.
Defined.

Lemma settlement_account_wf : positions_wf (_positions settlement_account).
Proof.
  unfold positions_wf. cbn [_positions settlement_account].
  repeat apply map_Forall_insert_2; try reflexivity. apply map_Forall_empty.
Defined.

Lemma apply_trade_idempotent_witness :
  _apply_trade (_apply_trade scenario_account scenario_trade) scenario_trade
  = _apply_trade scenario_account scenario_trade.
Proof. apply (apply_trade_idempotent scenario_account scenario_trade). Defined.



Lemma dedup_window_witness :
  ∃ s', _on_settlement settlement_env
          (_apply_trade scenario_account scenario_trade) settlement_day
        = Ok s'
    ∧ _backward_trade_set s' = ∅
    ∧ _apply_trade s' scenario_trade = apply_trade_body s' scenario_trade.
Proof.
  destruct (dedup_window settlement_env scenario_account settlement_day
              scenario_trade settlement_env_dividends_valid)
    as (_ & s' & Hrun & Hempty & Hfull & _).
  exists s'. split; [exact Hrun|]. split; [exact Hempty|exact Hfull].
Defined.

Lemma frozen_cash_nonneg_preserved_witness :
  ∃ s1 s2,
    handle quiet_env scenario_account (ORDER_PENDING_NEW scenario_order)
    = Ok s1
    ∧ 0 ≤ _frozen_cash s1
    ∧ handle quiet_env s1 (TRADE scenario_trade) = Ok s2
    ∧ 0 ≤ _frozen_cash s2.
Proof.
  destruct (frozen_cash_nonneg_preserved quiet_env scenario_account
              (ORDER_PENDING_NEW scenario_order))
    as (s1 & Hrun1 & Hpos1 & _).
  - qc_le.
  - intros _. qc_le.
  - exact I.
  - injection Hrun1 as <-.
    destruct (frozen_cash_nonneg_preserved quiet_env
                (_on_order_pending_new scenario_account scenario_order)
                (TRADE scenario_trade) Hpos1)
      as (s2 & Hrun2 & Hpos2 & _).
    + intros _ _. qc_le.
    + exact I.
    + eexists. exists s2. split; [reflexivity|]. split; [exact Hpos1|].
      split; [exact Hrun2|exact Hpos2].
Defined.

Lemma default_backward_trade_set_is_shared_witness :
  let a1 := StockAccount_init (Qc_of_Z 100000) (∅ : gmap string StockPosition)
              None None in
  let a2 := StockAccount_init (Qc_of_Z 5) (∅ : gmap string StockPosition)
              None None in
  deliver_trade (deliver_trade ∅ a1 scenario_trade).1 a2 scenario_trade
  = ((deliver_trade ∅ a1 scenario_trade).1, a2).
Proof.
  apply (default_backward_trade_set_is_shared ∅ (Qc_of_Z 100000) (Qc_of_Z 5)
           ∅ ∅ None None scenario_trade scenario_trade eq_refl).
Defined.

(** * Further properties of the handlers *)

Section Replay.
Context {Position : Type} `{!PositionOps Position}.
Implicit Types (s : @StockAccount Position) (trade : Trade) (o : Order).

Lemma StockAccount_eq s1 s2 :
  _total_cash s1 = _total_cash s2 →
  _frozen_cash s1 = _frozen_cash s2 →
  _positions s1 = _positions s2 →
  _backward_trade_set s1 = _backward_trade_set s2 →
  _dividend_receivable s1 = _dividend_receivable s2 →
  s1 = s2.
Proof. destruct s1, s2. cbn. by intros -> -> -> -> ->. Qed.

(** ** Replaying trades *)

Lemma on_trade_backward_trade_set s trade :
  _backward_trade_set (_on_trade s trade) =
    {[exec_id trade]} ∪ _backward_trade_set s.
Proof.
  unfold _on_trade, _apply_trade. case_decide as Hdup.
  - apply set_eq. intros e. rewrite elem_of_union, elem_of_singleton.
    split; [by right|]. by intros [->|?].
  - apply apply_trade_body_backward_trade_set.
Qed.

Lemma replay_backward_trade_set s trades :
  _backward_trade_set (foldl _on_trade s trades) =
    list_to_set (exec_id <$> trades) ∪ _backward_trade_set s.
Proof.
  revert s. induction trades as [|trade trades IH]; intros s.
  - cbn. by rewrite union_empty_l_L.
  - cbn [foldl]. rewrite IH, on_trade_backward_trade_set.
    rewrite fmap_cons, list_to_set_cons.
    apply set_eq. intros e. rewrite !elem_of_union. tauto.
Qed.

Lemma replay_duplicates s trades :
  (∀ trade, trade ∈ trades → exec_id trade ∈ _backward_trade_set s) →
  foldl _on_trade s trades = s.
Proof.
  induction trades as [|trade trades IH]; intros Hdup; [done|].
  cbn [foldl]. unfold _on_trade at 2.
  rewrite apply_trade_duplicate by (apply Hdup; left).
  apply IH. intros t Ht. apply Hdup. by right.
Qed.

Lemma replay_records s trades trade :
  trade ∈ trades →
  exec_id trade ∈ _backward_trade_set (foldl _on_trade s trades).
Proof.
  intros Hin. rewrite replay_backward_trade_set, elem_of_union. left.
  apply elem_of_list_to_set, list_elem_of_fmap. by exists trade.
Qed.

(** X1.  Delivering a list of trades a second time changes nothing: every
    execution of the list is in the dedup set after the first pass, so
    the second pass skips them all. *)
Theorem replay_idempotent s trades :
  foldl _on_trade (foldl _on_trade s trades) trades =
    foldl _on_trade s trades.
Proof. apply replay_duplicates. intros trade. apply replay_records. Qed.

(** X2.  After a list of trades was delivered, the dedup set holds exactly
    the ids it held before and the ids of the trades delivered: an id is
    never dropped by a trade, and no other id enters. *)
Theorem dedup_set_after_replay s trades (e : Z) :
  e ∈ _backward_trade_set (foldl _on_trade s trades)
  ↔ e ∈ _backward_trade_set s ∨ ∃ trade, trade ∈ trades ∧ exec_id trade = e.
Proof.
  rewrite replay_backward_trade_set, elem_of_union, elem_of_list_to_set.
  rewrite list_elem_of_fmap. split.
  - intros [(trade & -> & Hin)|Hold]; [right; by exists trade|by left].
  - intros [Hold|(trade & Hin & <-)]; [by right|left; by exists trade].
Qed.

(** X3.  Trades with pairwise distinct ids, none of them applied before,
    are all applied, once each and in the order of delivery: the cash
    and the frozen cash after the replay are the ones before, updated
    trade by trade as [_apply_trade] updates them (cost off, then value
    off on a buy and on otherwise; frozen price times quantity released
    on a buy).  They do not depend on the positions. *)
Theorem replay_cash_flow s trades :
  NoDup (exec_id <$> trades) →
  (∀ trade, trade ∈ trades → exec_id trade ∉ _backward_trade_set s) →
  _total_cash (foldl _on_trade s trades) =
    foldl cash_after_trade (_total_cash s) trades
  ∧ _frozen_cash (foldl _on_trade s trades) =
      foldl frozen_cash_after_trade (_frozen_cash s) trades.
Proof.
  revert s. induction trades as [|trade trades IH]; intros s Hnd Hnew.
  { done. }
  rewrite fmap_cons in Hnd. apply list.NoDup_cons in Hnd as [Hfirst Hnd].
  cbn [foldl]. unfold _on_trade at 2 4.
  rewrite apply_trade_new by (apply Hnew; left).
  destruct (IH (apply_trade_body s trade) Hnd) as [Hc Hf].
  { intros t Ht. rewrite apply_trade_body_backward_trade_set.
    rewrite elem_of_union, elem_of_singleton. intros [Heq|Hold].
    - apply Hfirst, list_elem_of_fmap. by exists t.
    - by apply (Hnew t); [right|]. }
  rewrite Hc, Hf, apply_trade_body_total_cash, apply_trade_body_frozen_cash.
  done.
Qed.

(** ** Fast forward *)

Lemma replay_with_frozen_cash s (c : Qc) trades :
  ∃ c', foldl _on_trade (set_frozen_cash s c) trades =
        set_frozen_cash (foldl _on_trade s trades) c'.
Proof.
  revert s c. induction trades as [|trade trades IH]; intros s c.
  { by exists c. }
  cbn [foldl]. unfold _on_trade at 2 4, _apply_trade.
  cbn [_backward_trade_set set_frozen_cash].
  destruct (decide (exec_id trade ∈ _backward_trade_set s)); [apply IH|].
  assert (Hbody : ∃ c1, apply_trade_body (set_frozen_cash s c) trade =
                        set_frozen_cash (apply_trade_body s trade) c1).
  { unfold apply_trade_body. cbn [_positions set_frozen_cash].
    destruct (get_or_create _ _) as [m position].
    destruct (decide (side trade = BUY)); eexists; reflexivity. }
  destruct Hbody as [c1 ->]. apply IH.
Qed.

(** X4.  [fast_forward] is idempotent: run again on the same orders and
    trades it skips every trade and recomputes the same frozen cash. *)
Theorem fast_forward_idempotent s orders trades :
  fast_forward (fast_forward s orders trades) orders trades =
    fast_forward s orders trades.
Proof.
  rewrite !fast_forward_spec.
  rewrite replay_duplicates; [done|].
  intros trade Hin. cbn [_backward_trade_set set_frozen_cash].
  by apply replay_records.
Qed.

(** X5.  The result of [fast_forward] does not depend on the frozen cash
    the account tracked before: two accounts that differ in it alone are
    fast-forwarded to the same account. *)
Theorem fast_forward_discards_frozen_cash s (c : Qc) orders trades :
  fast_forward (set_frozen_cash s c) orders trades =
    fast_forward s orders trades.
Proof.
  rewrite !fast_forward_spec.
  destruct (replay_with_frozen_cash s c trades) as [c' ->]. done.
Qed.

End Replay.

Section Orders.
Context {Position : Type} `{!PositionOps Position}.
Implicit Types (s : @StockAccount Position) (trade : Trade) (o : Order).

(** X7.  A sell trade that is not a duplicate credits the cash with the
    traded value less the cost and records its id; it releases no frozen
    cash and does not update the position record: the account holds for
    the symbol the record it held before (a fresh one when it held none),
    and every other position is as it was. *)
Theorem sell_trade_effect s trade :
  side trade = SELL →
  exec_id trade ∉ _backward_trade_set s →
  let k := o_order_book_id (order trade) in
  let s' := _on_trade s trade in
  _total_cash s' =
    _total_cash s - transaction_cost trade
    + last_price trade * last_quantity trade
  ∧ _frozen_cash s' = _frozen_cash s
  ∧ _positions s' !! k = Some (default (new_position k) (_positions s !! k))
  ∧ (∀ k', k' ≠ k → _positions s' !! k' = _positions s !! k')
  ∧ exec_id trade ∈ _backward_trade_set s'.
Proof.
  intros Hsell Hnew k s'. unfold s', _on_trade. rewrite apply_trade_new by done.
  rewrite apply_trade_body_total_cash, apply_trade_body_frozen_cash,
    apply_trade_body_positions, apply_trade_body_backward_trade_set.
  cbn zeta. fold k. rewrite !decide_False by (rewrite Hsell; discriminate).
  split; [done|]. split; [done|]. split; [apply lookup_insert_eq|].
  split.
  - intros k' Hne. by rewrite lookup_insert_ne.
  - apply elem_of_union. left. by apply elem_of_singleton.
Qed.

(** X8.  A trade or an order event touches the position of its own symbol
    only: every other position and the dividend table are as before; an
    order event changes neither the cash nor the dedup set. *)
Theorem event_touches_one_symbol (env : Environment) s (event : EVENT) k :
  event_symbol event = Some k →
  ∃ s', handle env s event = Ok s'
    ∧ (∀ k', k' ≠ k → _positions s' !! k' = _positions s !! k')
    ∧ _dividend_receivable s' = _dividend_receivable s
    ∧ (is_order_event event = true →
       _total_cash s' = _total_cash s
       ∧ _backward_trade_set s' = _backward_trade_set s).
Proof.
  assert (Hcreate : ∀ (m : gmap string Position) k0 k',
    k' ≠ k0 → (get_or_create m k0).1 !! k' = m !! k').
  { intros m k0 k' Hne. unfold get_or_create.
    destruct (m !! k0); cbn; [done|]. by rewrite lookup_insert_ne. }
  assert (Hpending : ∀ o,
    (∀ k', k' ≠ o_order_book_id o →
       _positions (_on_order_pending_new s o) !! k' = _positions s !! k')).
  { intros o k' Hne. unfold _on_order_pending_new.
    pose proof (Hcreate (_positions s) (o_order_book_id o) k' Hne) as Hc.
    destruct (get_or_create _ _) as [m position]. cbn in Hc.
    case_decide; cbn; by rewrite lookup_insert_ne. }
  assert (Hcancel : ∀ o,
    (∀ k', k' ≠ o_order_book_id o →
       _positions (_on_order_unsolicited_update s o) !! k'
       = _positions s !! k')).
  { intros o k' Hne. unfold _on_order_unsolicited_update.
    pose proof (Hcreate (_positions s) (o_order_book_id o) k' Hne) as Hc.
    destruct (get_or_create _ _) as [m position]. cbn in Hc.
    case_decide; cbn; by rewrite lookup_insert_ne. }
  intros Hsym.
  destruct event as [trade|o|o|o|o| | |dt]; cbn in Hsym; try done;
    injection Hsym as <-; cbn [handle is_order_event]; eexists;
    (split; [reflexivity|]).
  - split; [|split; [|done]].
    + intros k' Hne. unfold _on_trade, _apply_trade.
      case_decide; [done|]. rewrite apply_trade_body_positions. cbn zeta.
      case_decide; by rewrite lookup_insert_ne.
    + unfold _on_trade, _apply_trade. case_decide; [done|].
      unfold apply_trade_body. destruct (get_or_create _ _) as [m position].
      by case_decide.
  - destruct (on_order_pending_new_fields s o) as (? & ? & ?).
    split; [apply Hpending|]. done.
  - destruct (on_order_unsolicited_update_fields s o) as (? & ? & ?).
    split; [apply Hcancel|]. done.
  - destruct (on_order_unsolicited_update_fields s o) as (? & ? & ?).
    split; [apply Hcancel|]. done.
  - destruct (on_order_unsolicited_update_fields s o) as (? & ? & ?).
    split; [apply Hcancel|]. done.
Qed.

(** ** Accounts with their own dedup sets *)

(** X9.  Two accounts constructed with two different sets do not share
    their dedup state: once the first account has applied and recorded a
    trade, the same trade delivered to the second account (whose own set
    does not hold the id) is not skipped: the whole body of
    [_apply_trade] runs on the second account, its cash is updated by
    cost and value, and the id enters its own set. *)
Theorem explicit_sets_are_separate (h : gmap loc (gset Z))
  (cash1 cash2 : Qc) (positions1 positions2 : gmap string Position)
  (dividends1 dividends2 : option (gmap string Dividend))
  (set1 set2 : loc) trade :
  set1 ≠ set2 →
  exec_id trade ∉ default ∅ (h !! set2) →
  let a1 := StockAccount_init cash1 positions1 (Some set1) dividends1 in
  let a2 := StockAccount_init cash2 positions2 (Some set2) dividends2 in
  let h1 := (deliver_trade h a1 trade).1 in
  exec_id trade ∈ default ∅ (h1 !! set1)
  ∧ deliver_trade h1 a2 trade =
      store h1 a2 (apply_trade_body (load h1 a2) trade)
  ∧ obj_total_cash (deliver_trade h1 a2 trade).2 =
      (if decide (side trade = BUY)
       then cash2 - transaction_cost trade
            - last_quantity trade * last_price trade
       else cash2 - transaction_cost trade
            + last_price trade * last_quantity trade)
  ∧ exec_id trade ∈ default ∅ ((deliver_trade h1 a2 trade).1 !! set2).
Proof.
  intros Hne Hnew a1 a2 h1.
  assert (Hrecorded : exec_id trade ∈ default ∅ (h1 !! set1)).
  { destruct (deliver_trade_records h a1 trade) as (ids & Hids & Hin).
    change (obj_backward_trade_set a1) with set1 in Hids.
    unfold h1. by rewrite Hids. }
  assert (Hkept : h1 !! set2 = h !! set2).
  { unfold h1, deliver_trade, store. cbn [fst]. by apply lookup_insert_ne. }
  assert (Hfull : deliver_trade h1 a2 trade =
                  store h1 a2 (apply_trade_body (load h1 a2) trade)).
  { unfold deliver_trade, _on_trade. rewrite apply_trade_new; [done|].
    unfold load. cbn [_backward_trade_set].
    change (obj_backward_trade_set a2) with set2. by rewrite Hkept. }
  split; [exact Hrecorded|]. split; [exact Hfull|]. rewrite Hfull.
  set (s2 := apply_trade_body (load h1 a2) trade). split.
  - change (obj_total_cash (store h1 a2 s2).2) with (_total_cash s2).
    unfold s2. by rewrite apply_trade_body_total_cash.
  - change ((store h1 a2 s2).1)
      with (<[set2 := _backward_trade_set s2]> h1).
    rewrite lookup_insert_eq.
    change (exec_id trade ∈ _backward_trade_set s2). unfold s2.
    rewrite apply_trade_body_backward_trade_set.
    apply elem_of_union. left. by apply elem_of_singleton.
Qed.

End Orders.

Section Dividends.
Context {Position : Type} `{!PositionOps Position}.
Implicit Types (s : @StockAccount Position) (m : gmap string Dividend).

(** ** Paying dividends *)

Lemma due_total_none m (d : date) :
  (∀ k r, m !! k = Some r → d_payable_date r ≠ d) → due_total m d = 0.
Proof.
  intros Hnone. unfold due_total, due_total_of.
  assert (Hl : ∀ kr, kr ∈ map_to_list m → d_payable_date kr.2 ≠ d).
  { intros [k r] Hin%elem_of_map_to_list. by eapply Hnone. }
  induction (map_to_list m) as [|kr l IH]; [done|]. cbn [foldr].
  rewrite decide_False by (apply Hl; left).
  apply IH. intros kr' Hin. apply Hl. by right.
Qed.

Lemma paid_table_none_due s (d : date) k r :
  _dividend_receivable (_handle_dividend_payable s d) !! k = Some r →
  d_payable_date r ≠ d.
Proof.
  destruct (handle_dividend_payable_spec s d) as (_ & _ & _ & _ & Ht).
  rewrite Ht. destruct (_dividend_receivable s !! k) as [r0|]; [|done].
  cbn. unfold unpaid. case_decide; [done|]. by intros [= <-].
Qed.

(** X10.  Paying the dividends of a date twice is paying them once: after
    the first call no record payable on that date is left, so the second
    call credits nothing and removes nothing. *)
Theorem handle_dividend_payable_idempotent s (d : date) :
  _handle_dividend_payable (_handle_dividend_payable s d) d =
    _handle_dividend_payable s d.
Proof.
  set (s1 := _handle_dividend_payable s d).
  destruct (handle_dividend_payable_spec s1 d) as (Hc & Hf & Hp & Hb & Ht).
  apply StockAccount_eq; try done.
  - rewrite Hc, due_total_none; [apply Qcplus_0_r|].
    intros k r. apply paid_table_none_due.
  - apply map_eq. intros k. rewrite Ht.
    destruct (_dividend_receivable s1 !! k) as [r|] eqn:Hk; [|done]. cbn.
    unfold unpaid. rewrite decide_False; [done|].
    by eapply paid_table_none_due.
Qed.

End Dividends.

Section Boundaries.
Context {Position : Type} `{!PositionOps Position}.
Implicit Types (s : @StockAccount Position).

(** ** Loops that can raise *)

Lemma for_each_zero_division {A S : Type} (body : S → A → result S)
  (bad : A → Prop) `{!∀ x, Decision (bad x)} :
  (∀ st x, bad x → body st x = Raise ZeroDivisionError) →
  (∀ st x, ¬ bad x → ∃ st', body st x = Ok st') →
  ∀ l st,
    (Exists bad l → for_each body l st = Raise ZeroDivisionError)
    ∧ (¬ Exists bad l → ∃ st', for_each body l st = Ok st').
Proof.
  intros Hbad Hgood. induction l as [|x l IH]; intros st.
  { split; [by intros ?%Exists_nil|]. intros _. by exists st. }
  cbn [for_each]. destruct (decide (bad x)) as [Hx|Hx].
  - rewrite (Hbad st x Hx). split; [done|]. intros Hnot. destruct Hnot.
    by left.
  - destruct (Hgood st x Hx) as [st' ->]. cbn.
    destruct (IH st') as [Hraise Hok]. split.
    + intros [?|?]%Exists_cons; [done|auto].
    + intros Hnot. apply Hok. intros Hex. apply Hnot. by right.
Qed.


Lemma split_step_nonzero (env : Environment) (d : date) s k p :
  ¬ zero_split_at env d (k, p) →
  split_step env d s (k, p) =
    Ok match get_split_by_ex_date env k d with
       | Some _ =>
           set_positions s (<[k := split_applied env d k p]> (_positions s))
       | None => s
       end.
Proof.
  unfold zero_split_at, split_step, split_applied. cbn [fst].
  destruct (get_split_by_ex_date env k d) as [split|]; [|done].
  intros Hnonzero. unfold py_div. by rewrite decide_False.
Qed.

Lemma book_closure_step_zero (env : Environment) (d : date) s kp :
  zero_round_lot_at env d kp →
  dividend_book_closure_step env d s kp = Raise ZeroDivisionError.
Proof.
  destruct kp as [k p]. unfold zero_round_lot_at, dividend_book_closure_step.
  cbn [fst]. destruct (get_dividend_by_book_date env k d); [|done].
  intros Hzero. unfold py_div. by rewrite decide_True.
Qed.

Lemma book_closure_step_nonzero (env : Environment) (d : date) s kp :
  ¬ zero_round_lot_at env d kp →
  ∃ s', dividend_book_closure_step env d s kp = Ok s'.
Proof.
  destruct kp as [k p]. unfold zero_round_lot_at, dividend_book_closure_step.
  cbn [fst]. destruct (get_dividend_by_book_date env k d); [|by exists s].
  intros Hnonzero. unfold py_div. rewrite decide_False by done.
  eexists. reflexivity.
Qed.

Lemma zero_split_held_list (env : Environment) (d : date)
  (m : gmap string Position) :
  Exists (zero_split_at env d) (map_to_list m) ↔ zero_split_held env m d.
Proof.
  rewrite list.Exists_exists. unfold zero_split_held, zero_split_at. split.
  - intros ([k p] & Hin%elem_of_map_to_list & Hzero). cbn [fst] in Hzero.
    destruct (get_split_by_ex_date env k d) as [split|] eqn:Hs; [|done].
    by exists k, p, split.
  - intros (k & p & split & Hk & Hs & Hzero). exists (k, p).
    split; [by apply elem_of_map_to_list|]. cbn [fst]. by rewrite Hs.
Qed.

(** ** Splits *)

Lemma split_loop_positions (env : Environment) (d : date)
  (l : list (string * Position)) s :
  ¬ Exists (zero_split_at env d) l →
  NoDup l.*1 →
  ∃ s', for_each (split_step env d) l s = Ok s'
    ∧ _total_cash s' = _total_cash s
    ∧ _dividend_receivable s' = _dividend_receivable s
    ∧ ∀ k, _positions s' !! k =
        match (list_to_map l : gmap string Position) !! k,
              get_split_by_ex_date env k d with
        | Some p, Some _ => Some (split_applied env d k p)
        | _, _ => _positions s !! k
        end.
Proof.
  revert s. induction l as [|[k0 p0] l IH]; intros s Hok Hnd.
  { exists s. cbn. repeat split. }
  rewrite fmap_cons in Hnd. apply list.NoDup_cons in Hnd as [Hk0 Hnd].
  assert (Hnone : (list_to_map l : gmap string Position) !! k0 = None)
    by by apply not_elem_of_list_to_map_1.
  cbn [for_each]. rewrite split_step_nonzero by (intros ?; apply Hok; by left).
  match goal with |- context [Ok ?s1 ≫= _] =>
    destruct (IH s1) as (s' & Hrun & Hc & Ht & Hp);
      [intros ?; apply Hok; by right|done|] end.
  exists s'. split; [exact Hrun|].
  destruct (get_split_by_ex_date env k0 d) as [split|] eqn:Hsplit.
  - split; [done|]. split; [done|]. intros k. rewrite Hp.
    cbn [list_to_map foldr]. destruct (decide (k = k0)) as [->|Hne].
    + rewrite Hnone, lookup_insert_eq, Hsplit. cbn.
      by rewrite lookup_insert_eq.
    + rewrite lookup_insert_ne by done. cbn. by rewrite lookup_insert_ne.
  - split; [done|]. split; [done|]. intros k. rewrite Hp.
    cbn [list_to_map foldr]. destruct (decide (k = k0)) as [->|Hne].
    + by rewrite Hnone, lookup_insert_eq, Hsplit.
    + by rewrite lookup_insert_ne.
Qed.

Lemma handle_split_positions (env : Environment) s (d : date) :
  ¬ zero_split_held env (_positions s) d →
  ∃ s', _handle_split env s d = Ok s'
    ∧ _total_cash s' = _total_cash s
    ∧ _dividend_receivable s' = _dividend_receivable s
    ∧ ∀ k, _positions s' !! k = split_applied env d k <$> _positions s !! k.
Proof.
  intros Hok. unfold _handle_split.
  destruct (split_loop_positions env d (map_to_list (_positions s)) s)
    as (s' & Hrun & Hc & Ht & Hp).
  { by rewrite zero_split_held_list. }
  { apply NoDup_fst_map_to_list. }
  exists s'. split; [done|]. split; [done|]. split; [done|].
  intros k. rewrite Hp, list_to_map_to_list.
  destruct (_positions s !! k) as [p|] eqn:Hk; [|done]. cbn.
  unfold split_applied.
  by destruct (get_split_by_ex_date env k d).
Qed.


(** ** Settlement *)

(** X13.  For a store keyed by symbol, settlement raises
    [ZeroDivisionError] exactly when a position it keeps (one with a
    quantity that is not delisted) has a dividend with a zero round lot
    on the date; a zero round lot on a symbol that settlement removes, or
    that is not held, does no harm. *)
Theorem settlement_zero_round_lot `{!PositionLaws Position}
  (env : Environment) s (dt : datetime) :
  positions_wf (_positions s) →
  (zero_round_lot_held env (_positions s) (dt_date dt) →
   _on_settlement env s dt = Raise ZeroDivisionError)
  ∧ (¬ zero_round_lot_held env (_positions s) (dt_date dt) →
     ∃ s', _on_settlement env s dt = Ok s').
Proof.
  intros Hwf. unfold _on_settlement.
  destruct (settlement_loop env (map_to_list (_positions s)) s)
    as (_ & _ & _ & _ & Hp1).
  { apply NoDup_fst_map_to_list. }
  { intros k p Hin%elem_of_map_to_list. split; [by apply Hwf|done]. }
  set (s1 := foldl _ _ _) in *.
  assert (Hpos : _positions s1 = omap settled (_positions s)).
  { apply map_eq. intros k. rewrite Hp1, list_to_map_to_list, lookup_omap.
    by destruct (_positions s !! k). }
  unfold _handle_dividend_book_closure.
  cbn [_positions set_backward_trade_set]. rewrite Hpos.
  assert (Hheld :
    Exists (zero_round_lot_at env (dt_date dt))
      (map_to_list (omap settled (_positions s)))
    ↔ zero_round_lot_held env (_positions s) (dt_date dt)).
  { rewrite list.Exists_exists. unfold zero_round_lot_held, zero_round_lot_at.
    split.
    - intros ([k p'] & Hin%elem_of_map_to_list & Hzero).
      cbn [fst] in Hzero.
      apply lookup_omap_Some in Hin as (p & Hset & Hk).
      destruct (get_dividend_by_book_date env k (dt_date dt))
        as [dividend|] eqn:Hd; [|done].
      exists k, p, dividend. unfold settled in Hset.
      destruct (decide (quantity p = 0)); [done|].
      destruct (is_de_listed p); [done|]. done.
    - intros (k & p & dividend & Hk & Hq & Hdl & Hd & Hzero).
      exists (k, apply_settlement p). split.
      + apply elem_of_map_to_list, lookup_omap_Some. exists p.
        split; [|done]. unfold settled. by rewrite decide_False, Hdl.
      + cbn [fst]. by rewrite Hd. }
  rewrite <-Hheld.
  apply (for_each_zero_division _ (zero_round_lot_at env (dt_date dt))).
  - intros st x. apply book_closure_step_zero.
  - intros st x. apply book_closure_step_nonzero.
Qed.

(** X14.  Settlement never drops a pending dividend: every symbol with a
    record before has one after.  A record is written only for a symbol
    that is still held after the pruning and has a dividend on the date;
    the record of any other symbol is left as it is. *)
Theorem settlement_keeps_pending_records `{!PositionLaws Position}
  (env : Environment) s (dt : datetime) :
  positions_wf (_positions s) →
  dividends_valid env (dt_date dt) →
  ∃ s', _on_settlement env s dt = Ok s'
    ∧ (∀ k, is_Some (_dividend_receivable s !! k) →
            is_Some (_dividend_receivable s' !! k))
    ∧ (∀ k, _positions s' !! k = None
            ∨ get_dividend_by_book_date env k (dt_date dt) = None →
            _dividend_receivable s' !! k = _dividend_receivable s !! k).
Proof.
  intros Hwf Hvalid.
  destruct (on_settlement_spec env s dt Hwf Hvalid)
    as (s' & Hrun & _ & _ & _ & Hp & Ht).
  exists s'. split; [done|]. split.
  - intros k Hsome. rewrite Ht.
    destruct (_positions s !! k ≫= settled); [|done].
    by destruct (get_dividend_by_book_date env k (dt_date dt)).
  - intros k Hk. rewrite Ht. rewrite Hp, lookup_omap in Hk.
    destruct Hk as [-> | ->]; [done|].
    by destruct (_positions s !! k ≫= settled).
Qed.

End Boundaries.

Section Store.
Context {Position : Type} `{!PositionOps Position}.
Context `{!PositionLaws Position} `{!PositionKeepsSymbol Position}.
Implicit Types (s : @StockAccount Position) (m : gmap string Position).

(** ** The store stays keyed by symbol *)

Lemma get_or_create_wf m k :
  positions_wf m →
  positions_wf (get_or_create m k).1
  ∧ order_book_id (get_or_create m k).2 = k.
Proof.
  intros Hwf. unfold get_or_create. destruct (m !! k) as [p|] eqn:Hk; cbn.
  - split; [done|]. by apply (Hwf k p).
  - split; [|apply new_position_id].
    apply map_Forall_insert_2; [apply new_position_id|done].
Qed.

Lemma on_trade_wf s trade :
  positions_wf (_positions s) → positions_wf (_positions (_on_trade s trade)).
Proof.
  intros Hwf. unfold _on_trade, _apply_trade. case_decide; [done|].
  unfold apply_trade_body.
  destruct (get_or_create_wf (_positions s) (o_order_book_id (order trade)) Hwf)
    as [Hwf' Hid].
  destruct (get_or_create _ _) as [m position]. cbn in Hwf', Hid.
  case_decide; cbn; [|done].
  apply map_Forall_insert_2; [|done]. by rewrite apply_trade_id.
Qed.

Lemma on_order_pending_new_wf s o :
  positions_wf (_positions s) →
  positions_wf (_positions (_on_order_pending_new s o)).
Proof.
  intros Hwf. unfold _on_order_pending_new.
  destruct (get_or_create_wf (_positions s) (o_order_book_id o) Hwf)
    as [Hwf' Hid].
  destruct (get_or_create _ _) as [m position]. cbn in Hwf', Hid.
  case_decide; cbn; (apply map_Forall_insert_2; [|done]);
    by rewrite on_order_pending_new_id.
Qed.

Lemma on_order_unsolicited_update_wf s o :
  positions_wf (_positions s) →
  positions_wf (_positions (_on_order_unsolicited_update s o)).
Proof.
  intros Hwf. unfold _on_order_unsolicited_update.
  destruct (get_or_create_wf (_positions s) (o_order_book_id o) Hwf)
    as [Hwf' Hid].
  destruct (get_or_create _ _) as [m position]. cbn in Hwf', Hid.
  case_decide; cbn; (apply map_Forall_insert_2; [|done]);
    by rewrite on_order_cancel_id.
Qed.

Lemma splits_valid_none_held (env : Environment) (d : date) m :
  splits_valid env d → ¬ zero_split_held env m d.
Proof.
  intros Hvalid (k & p & split & _ & Hsplit & Hzero).
  by apply (Hvalid k split).
Qed.

Lemma handle_wf (env : Environment) s (event : EVENT) :
  positions_wf (_positions s) →
  event_data_valid env event →
  ∃ s', handle env s event = Ok s' ∧ positions_wf (_positions s').
Proof.
  intros Hwf Hvalid.
  destruct event as [trade|o|o|o|o| | |dt]; cbn in Hvalid; cbn [handle].
  - eexists. split; [done|]. by apply on_trade_wf.
  - eexists. split; [done|]. by apply on_order_pending_new_wf.
  - eexists. split; [done|]. by apply on_order_unsolicited_update_wf.
  - eexists. split; [done|]. by apply on_order_unsolicited_update_wf.
  - eexists. split; [done|]. by apply on_order_unsolicited_update_wf.
  - unfold _before_trading.
    destruct (handle_dividend_payable_spec s (dt_date (trading_dt env)))
      as (_ & _ & Hp & _ & _).
    set (s1 := _handle_dividend_payable s _) in *.
    destruct (handle_split env) eqn:Hflag.
    + destruct (handle_split_positions env s1 (dt_date (trading_dt env)))
        as (s' & Hrun & _ & _ & Hp').
      { apply splits_valid_none_held. by apply Hvalid. }
      exists s'. split; [done|]. intros k p'. rewrite Hp', Hp.
      destruct (_positions s !! k) as [p|] eqn:Hk; [|done]. cbn.
      intros [= <-]. unfold split_applied.
      destruct (get_split_by_ex_date env k _);
        [rewrite split_id|]; by apply (Hwf k p).
    + exists s1. split; [done|]. by rewrite Hp.
  - eexists. split; [done|]. unfold _after_trading. cbn.
    apply map_Forall_fmap. intros k p Hk. cbn.
    rewrite after_trading_id. by apply (Hwf k p).
  - destruct (on_settlement_spec env s dt Hwf Hvalid)
      as (s' & Hrun & _ & _ & _ & Hp & _).
    exists s'. split; [done|]. rewrite Hp. intros k p'.
    rewrite lookup_omap. destruct (_positions s !! k) as [p|] eqn:Hk; [|done].
    cbn. unfold settled. destruct (decide (quantity p = 0)); [done|].
    destruct (is_de_listed p); [done|]. intros [= <-].
    rewrite apply_settlement_id. by apply (Hwf k p).
Qed.

(** X15.  The position store stays keyed by symbol through a whole
    session: when every position is stored under its own
    [order_book_id], the same holds after any sequence of events
    (trades, order events, before-trading, after-trading, settlement),
    each delivered under the environment of its own moment, and the
    session runs to its end when the split and dividend data the events
    read is sound. *)
Theorem store_stays_keyed s (events : list (Environment * EVENT)) :
  positions_wf (_positions s) →
  Forall (λ timed, event_data_valid timed.1 timed.2) events →
  ∃ s', run_session s events = Ok s' ∧ positions_wf (_positions s').
Proof.
  intros Hwf Hvalid. revert s Hwf. unfold run_session.
  induction Hvalid as [|[env event] events Hevent _ IH]; intros s Hwf.
  { by exists s. }
  cbn [for_each fst snd].
  destruct (handle_wf env s event Hwf Hevent) as (s1 & -> & Hwf1).
  by apply IH.
Qed.

End Store.

Section SharedSet.
Context {Position : Type} `{!PositionOps Position}.

(** X16.  The settlement of one account constructed without a
    [backward_trade_set] empties the dedup set of every other such
    account: after it, a trade the other account had applied and recorded
    is applied to that account again, in full, when it is delivered once
    more. *)
Theorem settlement_clears_shared_set (env : Environment)
  (h : gmap loc (gset Z)) (cash1 cash2 : Qc)
  (positions1 positions2 : gmap string Position)
  (dividends1 dividends2 : option (gmap string Dividend))
  (dt : datetime) :
  dividends_valid env (dt_date dt) →
  let a1 := StockAccount_init cash1 positions1 None dividends1 in
  let a2 := StockAccount_init cash2 positions2 None dividends2 in
  ∃ h1 a1', deliver_settlement env h a1 dt = Ok (h1, a1')
    ∧ _backward_trade_set (load h1 a2) = ∅
    ∧ ∀ trade, deliver_trade h1 a2 trade =
               store h1 a2 (apply_trade_body (load h1 a2) trade).
Proof.
  intros Hvalid a1 a2. unfold deliver_settlement.
  destruct (on_settlement_returns env (load h a1) dt Hvalid)
    as (s' & -> & _ & Hempty).
  cbn [mbind result_bind].
  exists (store h a1 s').1, (store h a1 s').2. split; [reflexivity|].
  assert (Hload :
    _backward_trade_set (load (store h a1 s').1 a2) = ∅).
  { unfold load, store. cbn [fst _backward_trade_set].
    change (obj_backward_trade_set a2) with (obj_backward_trade_set a1).
    by rewrite lookup_insert_eq. }
  split; [exact Hload|].
  intros trade. unfold deliver_trade, _on_trade.
  rewrite apply_trade_new; [done|]. rewrite Hload. apply not_elem_of_empty.
Qed.

End SharedSet.

(** ** The further properties at the example data *)

Lemma quiet_env_dividends_valid (d : date) : dividends_valid quiet_env d.
Proof. intros k x. cbn. discriminate. Defined.

Lemma quiet_env_splits_valid (d : date) : splits_valid quiet_env d.
Proof. intros k x. cbn. discriminate. Defined.

Lemma held_position_has_quantity : quantity held_position ≠ 0.
Proof.
  intros Heq. apply (f_equal this) in Heq. vm_compute in Heq. discriminate.
Defined.

Lemma sell_trade_effect_witness :
  _total_cash (_on_trade scenario_account scenario_sell_trade)
  = _total_cash scenario_account - transaction_cost scenario_sell_trade
    + last_price scenario_sell_trade * last_quantity scenario_sell_trade
  ∧ _frozen_cash (_on_trade scenario_account scenario_sell_trade)
    = _frozen_cash scenario_account.
Proof.
  destruct (sell_trade_effect scenario_account scenario_sell_trade)
    as (Hcash & Hfrozen & _).
  - reflexivity.
  - apply not_elem_of_empty.
  - split; [exact Hcash|exact Hfrozen].
Defined.

Lemma event_touches_one_symbol_witness :
  ∃ s', handle quiet_env scenario_account (TRADE scenario_trade) = Ok s'
    ∧ _dividend_receivable s' = _dividend_receivable scenario_account.
Proof.
  destruct (event_touches_one_symbol quiet_env scenario_account
              (TRADE scenario_trade) "000001.XSHE")
    as (s' & Hrun & _ & Htable & _).
  - reflexivity.
  - exists s'. split; [exact Hrun|exact Htable].
Defined.


Lemma settlement_zero_round_lot_witness :
  _on_settlement broken_env settlement_account settlement_day
  = Raise ZeroDivisionError.
Proof.
  destruct (settlement_zero_round_lot broken_env settlement_account
              settlement_day settlement_account_wf) as [Hraise _].
  apply Hraise.
  exists "000001.XSHE", held_position, broken_dividend.
  split; [vm_compute; reflexivity|].
  split; [exact held_position_has_quantity|].
  split; [reflexivity|]. split; [vm_compute; reflexivity|reflexivity].
Defined.

Lemma settlement_keeps_pending_records_witness :
  ∃ s', _on_settlement settlement_env settlement_account settlement_day
        = Ok s'
    ∧ _dividend_receivable s' !! "000002.XSHE"
      = _dividend_receivable settlement_account !! "000002.XSHE".
Proof.
  destruct (settlement_keeps_pending_records settlement_env
              settlement_account settlement_day settlement_account_wf
              settlement_env_dividends_valid)
    as (s' & Hrun & _ & Hkept).
  exists s'. split; [exact Hrun|]. apply Hkept. right.
  vm_compute. reflexivity.
Defined.

Lemma settlement_clears_shared_set_witness :
  let a1 := StockAccount_init (Qc_of_Z 100000) (∅ : gmap string StockPosition)
              None None in
  let a2 := StockAccount_init (Qc_of_Z 5) (∅ : gmap string StockPosition)
              None None in
  ∃ h1 a1',
    deliver_settlement quiet_env {[0%nat := {[1%Z]}]} a1
      {| dt_date := 1%Z; dt_seconds := 0%Z |} = Ok (h1, a1')
    ∧ _backward_trade_set (load h1 a2) = ∅.
Proof.
  cbn zeta.
  destruct (settlement_clears_shared_set quiet_env {[0%nat := {[1%Z]}]}
              (Qc_of_Z 100000) (Qc_of_Z 5)
              (∅ : gmap string StockPosition) ∅ None None
              {| dt_date := 1%Z; dt_seconds := 0%Z |}
              (quiet_env_dividends_valid 1%Z))
    as (h1 & a1' & Hrun & Hempty & _).
  exists h1, a1'. split; [exact Hrun|exact Hempty].
Defined.

Lemma replay_cash_flow_witness :
  _total_cash
    (foldl _on_trade scenario_account [scenario_trade; scenario_sell_trade])
  = foldl cash_after_trade (_total_cash scenario_account)
      [scenario_trade; scenario_sell_trade].
Proof.
  destruct (replay_cash_flow scenario_account
              [scenario_trade; scenario_sell_trade]) as [Hcash _].
  - change (NoDup [1%Z; 3%Z]).
    constructor.
    + intros [Heq|Hin]%elem_of_cons; [discriminate|].
      by apply elem_of_nil in Hin.
    + constructor; [apply not_elem_of_nil|constructor].
  - intros trade _. apply not_elem_of_empty.
  - exact Hcash.
Defined.

Lemma explicit_sets_are_separate_witness :
  let a1 := StockAccount_init (Qc_of_Z 100000) (∅ : gmap string StockPosition)
              (Some 1%nat) None in
  let a2 := StockAccount_init (Qc_of_Z 5) (∅ : gmap string StockPosition)
              (Some 2%nat) None in
  let h1 := (deliver_trade ∅ a1 scenario_trade).1 in
  deliver_trade h1 a2 scenario_trade =
    store h1 a2 (apply_trade_body (load h1 a2) scenario_trade).
Proof.
  cbn zeta.
  destruct (explicit_sets_are_separate ∅ (Qc_of_Z 100000) (Qc_of_Z 5)
              (∅ : gmap string StockPosition) ∅ None None 1%nat 2%nat
              scenario_trade) as (_ & Hfull & _).
  - discriminate.
  - apply not_elem_of_empty.
  - exact Hfull.
Defined.

(** A session of two trading days: an order and its fill on day 5, the
    close and the settlement of day 5, and the opening of day 10. *)
Lemma store_stays_keyed_witness :
  ∃ s', run_session scenario_account
          [(settlement_env, ORDER_PENDING_NEW scenario_order);
           (settlement_env, TRADE scenario_trade);
           (settlement_env, PRE_AFTER_TRADING);
           (settlement_env, SETTLEMENT settlement_day);
           (payment_env, PRE_BEFORE_TRADING)] = Ok s'
    ∧ positions_wf (_positions s').
Proof.
  apply (store_stays_keyed scenario_account).
  - apply map_Forall_empty.
  - repeat constructor.
    + apply settlement_env_dividends_valid.
    + intros _ k x. cbn. discriminate.
Defined.
